(** * Issuance of assets: a model of [chain/api/asset] ([asset.go])

    [Issue] builds an unsigned issuance transaction.  The Go code calls
    into other packages (persistence, the wire format, address encoding,
    key derivation); those calls are kept as the fields of a class of
    collaborators, and everything written in [asset.go] is translated
    function by function.

    Conventions of the embedding
    - a Go [string] is a [string], a [[]byte] a [list byte], an [int64]
      a [Z], a slice index a [nat];
    - a slice of pointers that may hold [nil] ([[]*utxodb.Receiver]) is a
      [list (option _)]; the entries of [outs []*Output] are dereferenced
      by the code without a test and are taken to be non-nil;
    - a function returning [(T, error)] is a computation [M T]: it takes
      the state of the outside world and returns either the error or the
      value, together with the state it leaves behind.  The state
      survives a failure, as the effects of a Go call do;
    - [defer metrics.RecordElapsed(time.Now())] only records a duration
      and is left out. *)

From Stdlib Require Import List String ZArith Lia Bool.
From Stdlib Require Import Strings.Byte.
Import ListNotations.

Local Open Scope string_scope.
Local Open Scope list_scope.

(** ** Package [chain/errors]

    An error value is kept as the tree of calls that built it, with the
    format string and its arguments side by side, not rendered. *)
Module errors.

Inductive arg : Type :=
| ArgInt (n : Z)
| ArgString (s : string).

Inductive error : Type :=
| New (text : string)
| WithDetailf (err : error) (format : string) (a : list arg)
| Wrap (err : error) (msg : string)
| Wrapf (err : error) (format : string) (a : list arg).

(** The error at the bottom of a chain of wrappers. *)
Fixpoint Root (e : error) : error :=
  match e with
  | New _ => e
  | WithDetailf e' _ _ => Root e'
  | Wrap e' _ => Root e'
  | Wrapf e' _ _ => Root e'
  end.

(** The annotations added on the way up, outermost first. *)
Fixpoint annotations (e : error) : list (string * list arg) :=
  match e with
  | New _ => []
  | WithDetailf e' f a => (f, a) :: annotations e'
  | Wrap e' m => (m, []) :: annotations e'
  | Wrapf e' f a => (f, a) :: annotations e'
  end.

End errors.
Export errors.

(** ** Package [chain/fedchain-sandbox/wire] *)
Module wire.

(** Modelled from the spec: [Hash32] is declared outside [src/]; it is
    an array of 32 bytes, and [new(wire.Hash32)] is its zero value, the
    all-zero identifier. *)
Definition Hash32 := list byte.

Definition new_Hash32 : Hash32 := repeat x00 32.

(** Modelled from the spec: the wire package is outside [src/].  A
    prior-output reference is a prior transaction identifier and an
    output index. *)
Record OutPoint := { Hash : Hash32; Index : Z }.

(** Modelled from the spec: an input is a prior-output reference and an
    unlocking (signature) script. *)
Record TxIn := { PreviousOutPoint : OutPoint; SignatureScript : list byte }.

(** Modelled from the spec: an output carries the asset's chain hash,
    the amount, and the locking script. *)
Record TxOut := { AssetID : Hash32; Value : Z; PkScript : list byte }.

(** Modelled from the spec: a transaction is its inputs and an ordered
    sequence of outputs. *)
Record MsgTx := { TxIns : list TxIn; TxOuts : list TxOut }.

(** Modelled from the spec: the constructors of the wire package store
    their arguments; a new transaction has no input and no output, and
    [AddTxIn] / [AddTxOut] append at the end. *)
Definition NewOutPoint (hash : Hash32) (index : Z) : OutPoint :=
  {| Hash := hash; Index := index |}.

Definition NewTxIn (prevOut : OutPoint) (signatureScript : list byte) : TxIn :=
  {| PreviousOutPoint := prevOut; SignatureScript := signatureScript |}.

Definition NewTxOut (assetID : Hash32) (value : Z) (pkScript : list byte) : TxOut :=
  {| AssetID := assetID; Value := value; PkScript := pkScript |}.

Definition NewMsgTx : MsgTx := {| TxIns := []; TxOuts := [] |}.

Definition AddTxIn (msg : MsgTx) (ti : TxIn) : MsgTx :=
  {| TxIns := TxIns msg ++ [ti]; TxOuts := TxOuts msg |}.

Definition AddTxOut (msg : MsgTx) (to : TxOut) : MsgTx :=
  {| TxIns := TxIns msg; TxOuts := TxOuts msg ++ [to] |}.

End wire.

(** ** Types owned by other packages

    The types of the values that [asset.go] only passes along are left
    open; [index_zero] is the Go zero value of an address index, which
    a freshly built [appdb.Address] holds. *)
Class ExternalTypes : Type := {
  World : Type;        (* what lies behind appdb: assets, accounts, addresses *)
  Ctx : Type;          (* context.Context *)
  XKeyT : Type;        (* hdkey.XKey, a root key *)
  PathT : Type;        (* a derivation path *)
  IndexT : Type;       (* the index of an address within its account *)
  GroupIDT : Type;     (* the identifier of an asset's key group *)
  index_zero : IndexT
}.

(** ** Package [chain/api/appdb]: the records, with the fields that
    [asset.go] reads or writes. *)
Module appdb.
Section Records.
Context {T : ExternalTypes}.

Record Asset := {
  Hash : wire.Hash32;
  GroupID : GroupIDT;
  RedeemScript : list byte;
  Keys : list XKeyT
}.

Record Address := {
  BucketID : string;
  IsChange : bool;
  PKScript : list byte;
  WalletID : string;
  Index : IndexT
}.

End Records.
End appdb.

(** ** Package [chain/api/utxodb] *)
Module utxodb.
Section Records.
Context {T : ExternalTypes}.

Record Receiver := {
  WalletID : string;
  BucketID : string;
  AddrIndex : IndexT;
  IsChange : bool
}.

End Records.
End utxodb.

(** ** Package [chain/fedchain-sandbox/hdkey] *)
Module hdkey.
Section Records.
Context {T : ExternalTypes}.

Record Key := { Root : XKeyT; Path : PathT }.

End Records.
End hdkey.

(** ** The collaborators

    The functions that [asset.go] calls and that live elsewhere.  The two
    that take the request context reach the stores, so they read and
    write the [World]. *)
Class Collaborators {T : ExternalTypes} : Type := {
  (* appdb.AssetByID(ctx, assetID) *)
  appdb_AssetByID : Ctx -> string -> World -> (error + appdb.Asset) * World;
  (* CreateAddress(ctx, addr, save): fills in addr *)
  asset_CreateAddress :
    Ctx -> appdb.Address -> bool -> World -> (error + appdb.Address) * World;
  (* txscript.AddrPkScript(addr) *)
  txscript_AddrPkScript : string -> error + list byte;
  (* tx.Serialize(&buf): the bytes left in the buffer *)
  wire_Serialize : wire.MsgTx -> list byte;
  (* the cryptographic hash function under wire.DoubleSha256 *)
  hash : list byte -> list byte;
  (* hdkey.Derive(keys, path) *)
  hdkey_Derive : list XKeyT -> PathT -> list hdkey.Key;
  (* appdb.IssuancePath(a) *)
  appdb_IssuancePath : appdb.Asset -> PathT;
  (* the String method of hdkey.XKey *)
  XKey_String : XKeyT -> string;
  (* the package variable ErrBadOutDest, declared in another file *)
  ErrBadOutDest : error
}.

(** ** Computations

    The state carries the world and, next to it, the list of the calls
    made to the stores, oldest first. *)
Section Computations.
Context {T : ExternalTypes} {C : Collaborators}.

Inductive Call : Type :=
| CallAssetByID (assetID : string)
| CallCreateAddress (addr : appdb.Address) (save : bool).

Record State := { world : World; calls : list Call }.

Definition M (A : Type) : Type := State -> (error + A) * State.

Definition ret {A} (a : A) : M A := fun s => (inr a, s).

Definition fail {A} (e : error) : M A := fun s => (inl e, s).

Definition bind {A B} (m : M A) (k : A -> M B) : M B :=
  fun s =>
    match m s with
    | (inl e, s') => (inl e, s')
    | (inr a, s') => k a s'
    end.

(** [if err != nil { return nil, f(err) }] *)
Definition onError {A} (f : error -> error) (m : M A) : M A :=
  fun s =>
    match m s with
    | (inl e, s') => (inl (f e), s')
    | (inr a, s') => (inr a, s')
    end.

Definition lift {A} (r : error + A) : M A := fun s => (r, s).

Definition AssetByID (ctx : Ctx) (assetID : string) : M appdb.Asset :=
  fun s =>
    let (r, w) := appdb_AssetByID ctx assetID (world s) in
    (r, {| world := w; calls := calls s ++ [CallAssetByID assetID] |}).

Definition CreateAddress (ctx : Ctx) (addr : appdb.Address) (save : bool)
  : M appdb.Address :=
  fun s =>
    let (r, w) := asset_CreateAddress ctx addr save (world s) in
    (r, {| world := w; calls := calls s ++ [CallCreateAddress addr save] |}).

(** Modelled from the spec: [wire.DoubleSha256] is outside [src/]; the
    digest function is the double application of the cryptographic hash
    function to a byte sequence. *)
Definition DoubleSha256 (b : list byte) : list byte := hash (hash b).

End Computations.

Declare Scope go_scope.
Delimit Scope go_scope with go.
Notation "x <- m ;; k" := (bind m (fun x => k))
  (at level 61, m at next level, right associativity) : go_scope.

(** ** Package [chain/api/asset] *)
Module asset.
Section Issue.
Context {T : ExternalTypes} {C : Collaborators}.
Local Open Scope go_scope.

(** [var ErrBadAddr = errors.New("bad address")] *)
Definition ErrBadAddr : error := New "bad address".

(** [type Output struct] *)
Record Output := {
  AssetID : string;
  Address : string;
  BucketID : string;
  Amount : Z;
  isChange : bool
}.

(** [Signature], [Input] and [Tx] are declared in another file of the
    package; these are the fields that [asset.go] fills. *)
Record Signature := { XPub : string; DerivationPath : PathT }.

Record Input := {
  AssetGroupID : GroupIDT;
  RedeemScript : list byte;
  SignatureData : list byte;
  Sigs : list Signature
}.

Record Tx := {
  Unsigned : list byte;
  BlockChain : string;
  Inputs : list Input;
  OutRecvs : list (option utxodb.Receiver)
}.

(** [func newOutputReceiver(addr *appdb.Address, isChange bool)] *)
Definition newOutputReceiver (addr : appdb.Address) (isChange : bool)
  : utxodb.Receiver :=
  {| utxodb.WalletID := appdb.WalletID addr;
     utxodb.BucketID := appdb.BucketID addr;
     utxodb.AddrIndex := appdb.Index addr;
     utxodb.IsChange := isChange |}.

(** [func (o *Output) PKScript(ctx)]: the script and, for an output to a
    bucket, the receiver; [None] is the nil receiver. *)
Definition Output_PKScript (o : Output) (ctx : Ctx)
  : M (list byte * option utxodb.Receiver) :=
  if negb (BucketID o =? "") then
    let addr := {| appdb.BucketID := BucketID o;
                   appdb.IsChange := isChange o;
                   appdb.PKScript := [];
                   appdb.WalletID := "";
                   appdb.Index := index_zero |} in
    addr <- onError
              (fun err => Wrapf err "output create address error bucket=%v"
                                [ArgString (BucketID o)])
              (CreateAddress ctx addr false) ;;
    ret (appdb.PKScript addr, Some (newOutputReceiver addr (isChange o)))
  else
    match txscript_AddrPkScript (Address o) with
    | inl _ =>
        fail (Wrapf ErrBadAddr "output pkscript error addr=%v"
                    [ArgString (Address o)])
    | inr script => ret (script, None)
    end.

(** The loop of [addAssetIssuanceOutputs], from index [i] on; [tx] is
    the transaction behind the pointer and [outAddrs] the slice built so
    far. *)
Fixpoint addAssetIssuanceOutputs_from (ctx : Ctx) (asset : appdb.Asset)
    (i : nat) (outs : list Output)
    (tx : wire.MsgTx) (outAddrs : list (option utxodb.Receiver))
  : M (wire.MsgTx * list (option utxodb.Receiver)) :=
  match outs with
  | [] => ret (tx, outAddrs)
  | out :: outs' =>
      r <- onError
             (fun err => WithDetailf err "output %d" [ArgInt (Z.of_nat i)])
             (Output_PKScript out ctx) ;;
      addAssetIssuanceOutputs_from ctx asset (S i) outs'
        (wire.AddTxOut tx
           (wire.NewTxOut (appdb.Hash asset) (Amount out) (fst r)))
        (outAddrs ++ [snd r])
  end.

(** [func addAssetIssuanceOutputs(ctx, tx, asset, outs)]; the transaction
    it has written to is returned along with the receivers. *)
Definition addAssetIssuanceOutputs (ctx : Ctx) (tx : wire.MsgTx)
    (asset : appdb.Asset) (outs : list Output)
  : M (wire.MsgTx * list (option utxodb.Receiver)) :=
  addAssetIssuanceOutputs_from ctx asset 0 outs tx [].

(** [func inputSigs(keys []*hdkey.Key) (sigs []*Signature)] *)
Fixpoint inputSigs_from (keys : list hdkey.Key) (sigs : list Signature)
  : list Signature :=
  match keys with
  | [] => sigs
  | k :: keys' =>
      inputSigs_from keys'
        (sigs ++ [{| XPub := XKey_String (hdkey.Root k);
                     DerivationPath := hdkey.Path k |}])
  end.

Definition inputSigs (keys : list hdkey.Key) : list Signature :=
  inputSigs_from keys [].

(** [func issuanceInput(a *appdb.Asset, tx *wire.MsgTx) *Input] *)
Definition issuanceInput (a : appdb.Asset) (tx : wire.MsgTx) : Input :=
  let buf := wire_Serialize tx in
  {| AssetGroupID := appdb.GroupID a;
     RedeemScript := appdb.RedeemScript a;
     SignatureData := DoubleSha256 buf;
     Sigs := inputSigs (hdkey_Derive (appdb.Keys a) (appdb_IssuancePath a)) |}.

(** The first loop of [Issue]: every output names exactly one kind of
    destination. *)
Fixpoint Issue_checkDests (i : nat) (outs : list Output) : error + unit :=
  match outs with
  | [] => inr tt
  | out :: outs' =>
      if Bool.eqb (BucketID out =? "") (Address out =? "") then
        inl (WithDetailf ErrBadOutDest "output index=%d" [ArgInt (Z.of_nat i)])
      else Issue_checkDests (S i) outs'
  end.

(** The transaction [Issue] starts from: [wire.NewMsgTx()] and the input
    added to it. *)
Definition Issue_tx0 : wire.MsgTx :=
  wire.AddTxIn wire.NewMsgTx
    (wire.NewTxIn (wire.NewOutPoint wire.new_Hash32 0) []).

(** [func Issue(ctx, assetID string, outs []*Output)], returning the
    [Tx] or the error. *)
Definition Issue (ctx : Ctx) (assetID : string) (outs : list Output) : M Tx :=
  let tx := Issue_tx0 in
  asset <- onError
             (fun err => WithDetailf err "get asset with ID %q"
                                     [ArgString assetID])
             (AssetByID ctx assetID) ;;
  _ <- lift (Issue_checkDests 0 outs) ;;
  r <- onError (fun err => Wrap err "add issuance outputs")
         (addAssetIssuanceOutputs ctx tx asset outs) ;;
  let tx := fst r in
  let outRecvs := snd r in
  let buf := wire_Serialize tx in
  ret {| Unsigned := buf;
         BlockChain := "sandbox";
         Inputs := [issuanceInput asset tx];
         OutRecvs := outRecvs |}.

End Issue.
End asset.

(** ** A small world to run the code in

    Stand-ins for the collaborators: one asset, ["AAPL"], one account,
    ["acct_1"], whose next address index is the state of the world, and
    one well-formed address, ["1ABC"]. *)
Module Demo.

#[export] Instance types : ExternalTypes := {|
  World := nat;
  Ctx := unit;
  XKeyT := string;
  PathT := list Z;
  IndexT := list Z;
  GroupIDT := string;
  index_zero := []
|}.

Definition aapl : appdb.Asset :=
  {| appdb.Hash := repeat x01 32;
     appdb.GroupID := "ag_1";
     appdb.RedeemScript := [x51; xae];
     appdb.Keys := ["xpub_a"; "xpub_b"] |}.

(** An asset with no root key. *)
Definition bare : appdb.Asset :=
  {| appdb.Hash := repeat x02 32;
     appdb.GroupID := "ag_2";
     appdb.RedeemScript := [x51];
     appdb.Keys := [] |}.

Definition lookup (ctx : unit) (assetID : string) (w : nat)
  : (error + appdb.Asset) * nat :=
  if assetID =? "AAPL" then (inr aapl, w)
  else if assetID =? "BARE" then (inr bare, w)
  else (inl (New "asset not found"), w).

Definition provision (ctx : unit) (addr : appdb.Address) (save : bool) (w : nat)
  : (error + appdb.Address) * nat :=
  if appdb.BucketID addr =? "acct_1" then
    (inr {| appdb.BucketID := appdb.BucketID addr;
            appdb.IsChange := appdb.IsChange addr;
            appdb.PKScript := [xa9; x87];
            appdb.WalletID := "w1";
            appdb.Index := [0%Z; Z.of_nat w] |}, S w)
  else (inl (New "bucket not found"), w).

Definition encode (addr : string) : error + list byte :=
  if addr =? "1ABC" then inr [x76; xa9; x88; xac]
  else inl (New "malformed address").

Definition serialize (tx : wire.MsgTx) : list byte :=
  (flat_map (fun ti => wire.Hash (wire.PreviousOutPoint ti)
                         ++ wire.SignatureScript ti) (wire.TxIns tx)
   ++ flat_map (fun to => wire.AssetID to ++ wire.PkScript to)
        (wire.TxOuts tx))%list.

Definition toy_hash (b : list byte) : list byte := x00 :: rev b.

Definition derive (keys : list string) (path : list Z) : list hdkey.Key :=
  map (fun k => {| hdkey.Root := k; hdkey.Path := path |}) keys.

#[export] Instance collaborators : Collaborators := {|
  appdb_AssetByID := lookup;
  asset_CreateAddress := provision;
  txscript_AddrPkScript := encode;
  wire_Serialize := serialize;
  hash := toy_hash;
  hdkey_Derive := derive;
  appdb_IssuancePath := fun _ => [0%Z; 7%Z];
  XKey_String := fun k => k;
  ErrBadOutDest := New "invalid output destinations"
|}.

Definition ctx : Ctx := tt.

Definition s0 : State := {| world := 5; calls := [] |}.

Definition toAddress (a : string) (n : Z) : asset.Output :=
  {| asset.AssetID := "AAPL"; asset.Address := a; asset.BucketID := "";
     asset.Amount := n; asset.isChange := false |}.

Definition toBucket (b : string) (n : Z) : asset.Output :=
  {| asset.AssetID := "AAPL"; asset.Address := ""; asset.BucketID := b;
     asset.Amount := n; asset.isChange := false |}.

(** An output that names an address and a bucket at once. *)
Definition toBoth (a b : string) (n : Z) : asset.Output :=
  {| asset.AssetID := "AAPL"; asset.Address := a; asset.BucketID := b;
     asset.Amount := n; asset.isChange := false |}.

(** An output to an address, labelled with another asset. *)
Definition labelled (id a : string) (n : Z) : asset.Output :=
  {| asset.AssetID := id; asset.Address := a; asset.BucketID := "";
     asset.Amount := n; asset.isChange := false |}.

(** The state after the lookup of [assetID] in [s0]. *)
Definition s1 (assetID : string) : State :=
  {| world := 5; calls := [CallAssetByID assetID] |}.

(** The state after one address of ["acct_1"] was provisioned in
    [s1 assetID]. *)
Definition s2 (assetID : string) : State :=
  {| world := 6;
     calls := [CallAssetByID assetID;
               CallCreateAddress
                 {| appdb.BucketID := "acct_1";
                    appdb.IsChange := false;
                    appdb.PKScript := [];
                    appdb.WalletID := "";
                    appdb.Index := [] |} false] |}.

(** The address provisioned for ["acct_1"] in a world at index 5, and
    the receiver that names it. *)
Definition address5 : appdb.Address :=
  {| appdb.BucketID := "acct_1"; appdb.IsChange := false;
     appdb.PKScript := [xa9; x87]; appdb.WalletID := "w1";
     appdb.Index := [0%Z; 5%Z] |}.

Definition receiver5 : utxodb.Receiver :=
  {| utxodb.WalletID := "w1"; utxodb.BucketID := "acct_1";
     utxodb.AddrIndex := [0%Z; 5%Z]; utxodb.IsChange := false |}.

End Demo.

(** ** Vocabulary of the properties *)
Section Vocabulary.
Context {T : ExternalTypes} {C : Collaborators}.
Import asset.

(** An output names both kinds of destination, or neither. *)
Definition both_or_neither (o : Output) : Prop :=
  (Address o <> "" /\ BucketID o <> "") \/ (Address o = "" /\ BucketID o = "").

(** An output names exactly one kind of destination. *)
Definition one_destination (o : Output) : Prop :=
  (Address o <> "" /\ BucketID o = "") \/ (Address o = "" /\ BucketID o <> "").

(** The address record that [PKScript] hands to [CreateAddress] for an
    output to a bucket. *)
Definition addressRequest (o : Output) : appdb.Address :=
  {| appdb.BucketID := BucketID o;
     appdb.IsChange := isChange o;
     appdb.PKScript := [];
     appdb.WalletID := "";
     appdb.Index := index_zero |}.

(** The address records passed to [CreateAddress] in a list of calls. *)
Fixpoint addressRequests (cs : list Call) : list appdb.Address :=
  match cs with
  | [] => []
  | CallAssetByID _ :: cs' => addressRequests cs'
  | CallCreateAddress addr _ :: cs' => addr :: addressRequests cs'
  end.

(** The state a call to [appdb.AssetByID] leaves, given the world it
    leaves. *)
Definition after_lookup (s : State) (assetID : string) (w : World) : State :=
  {| world := w; calls := calls s ++ [CallAssetByID assetID] |}.

(** One output resolved: a raw address is encoded and has no receiver; a
    bucket gets the address that [CreateAddress] provisions in the
    current world, and the receiver names that address. *)
Inductive resolved (ctx : Ctx)
  : State -> Output -> list byte -> option utxodb.Receiver -> State -> Prop :=
| resolved_address s o script :
    BucketID o = "" ->
    txscript_AddrPkScript (Address o) = inr script ->
    resolved ctx s o script None s
| resolved_bucket s o addr w :
    BucketID o <> "" ->
    asset_CreateAddress ctx (addressRequest o) false (world s) = (inr addr, w) ->
    resolved ctx s o (appdb.PKScript addr)
      (Some {| utxodb.WalletID := appdb.WalletID addr;
               utxodb.BucketID := appdb.BucketID addr;
               utxodb.AddrIndex := appdb.Index addr;
               utxodb.IsChange := isChange o |})
      {| world := w;
         calls := calls s ++ [CallCreateAddress (addressRequest o) false] |}.

(** A sequence of outputs resolved one after the other, each in the
    state its predecessor left. *)
Inductive resolved_seq (ctx : Ctx)
  : State -> list Output -> list (list byte * option utxodb.Receiver)
    -> State -> Prop :=
| resolved_nil s : resolved_seq ctx s [] [] s
| resolved_cons s o script recv s1 outs rs s2 :
    resolved ctx s o script recv s1 ->
    resolved_seq ctx s1 outs rs s2 ->
    resolved_seq ctx s (o :: outs) ((script, recv) :: rs) s2.

(** The input every issuance transaction starts with. *)
Definition nullInput : wire.TxIn :=
  {| wire.PreviousOutPoint := {| wire.Hash := repeat x00 32; wire.Index := 0 |};
     wire.SignatureScript := [] |}.

(** The placeholder made for one derived key. *)
Definition placeholder (k : hdkey.Key) : Signature :=
  {| XPub := XKey_String (hdkey.Root k); DerivationPath := hdkey.Path k |}.

(** The error for a malformed address at index [i]. *)
Definition badAddrError (addr : string) (i : nat) : error :=
  Wrap
    (WithDetailf
       (Wrapf ErrBadAddr "output pkscript error addr=%v" [ArgString addr])
       "output %d" [ArgInt (Z.of_nat i)])
    "add issuance outputs".

(** The outputs added to the transaction for requests [outs] resolved
    as [rs]. *)
Definition issuedOutputs (a : appdb.Asset) (outs : list Output)
    (rs : list (list byte * option utxodb.Receiver)) : list wire.TxOut :=
  map (fun p => wire.NewTxOut (appdb.Hash a) (Amount (fst p)) (fst (snd p)))
      (combine outs rs).

(** Two outputs that differ at most in their [AssetID] field. *)
Definition same_but_AssetID (o o' : Output) : Prop :=
  Address o = Address o' /\ BucketID o = BucketID o' /\
  Amount o = Amount o' /\ isChange o = isChange o'.

(** The flag is not set, as in every output decoded from a request. *)
Definition not_change (o : Output) : Prop := isChange o = false.

(** The test [o.BucketID != ""] of [PKScript]: the output goes to a
    bucket. *)
Definition toBucketb (o : Output) : bool := negb (BucketID o =? "").

(** The call to [CreateAddress] that [PKScript] makes for an output to a
    bucket. *)
Definition provisionCall (o : Output) : Call :=
  CallCreateAddress (addressRequest o) false.

(** Two outputs that differ at most in their [Amount] field. *)
Definition same_but_Amount (o o' : Output) : Prop :=
  AssetID o = AssetID o' /\ Address o = Address o' /\
  BucketID o = BucketID o' /\ isChange o = isChange o'.

(** What is left of an outcome of [Issue] when the bytes of the
    transaction are put aside: the error or the receivers, and the
    state. *)
Definition effects (r : (error + Tx) * State)
  : (error + list (option utxodb.Receiver)) * State :=
  match r with
  | (inl e, s) => (inl e, s)
  | (inr res, s) => (inr (OutRecvs res), s)
  end.

(** The error for a failed provisioning at index [i]. *)
Definition provisioningError (err : error) (bucket : string) (i : nat) : error :=
  Wrap
    (WithDetailf
       (Wrapf err "output create address error bucket=%v" [ArgString bucket])
       "output %d" [ArgInt (Z.of_nat i)])
    "add issuance outputs".

(** A receiver is there (the pointer is not nil). *)
Definition present (r : option utxodb.Receiver) : bool :=
  match r with Some _ => true | None => false end.

End Vocabulary.

(** * Properties of [Issue] *)
Section Properties.
Context {T : ExternalTypes} {C : Collaborators}.
Import asset.

(** [Issue], one step at a time. *)
Lemma Issue_steps ctx assetID outs s :
  Issue ctx assetID outs s =
  match appdb_AssetByID ctx assetID (world s) with
  | (inl err, w) =>
      (inl (WithDetailf err "get asset with ID %q" [ArgString assetID]),
       after_lookup s assetID w)
  | (inr a, w) =>
      match Issue_checkDests 0 outs with
      | inl err => (inl err, after_lookup s assetID w)
      | inr _ =>
          match addAssetIssuanceOutputs ctx Issue_tx0 a outs
                  (after_lookup s assetID w) with
          | (inl err, s') => (inl (Wrap err "add issuance outputs"), s')
          | (inr r, s') =>
              (inr {| Unsigned := wire_Serialize (fst r);
                      BlockChain := "sandbox";
                      Inputs := [issuanceInput a (fst r)];
                      OutRecvs := snd r |}, s')
          end
      end
  end.
Proof.
  unfold Issue, bind, onError, lift, AssetByID, after_lookup.
  destruct (appdb_AssetByID ctx assetID (world s)) as [[err | a] w]; [reflexivity |].
  destruct (Issue_checkDests 0 outs) as [err | []]; [reflexivity |].
  destruct (addAssetIssuanceOutputs ctx Issue_tx0 a outs _) as [[err | r] s'];
    reflexivity.
Qed.

(** The test of the first loop is the spec's "both or neither". *)
Lemma checkDest_both_or_neither (o : Output) :
  Bool.eqb (BucketID o =? "") (Address o =? "") = true <-> both_or_neither o.
Proof.
  unfold both_or_neither.
  destruct (String.eqb_spec (BucketID o) ""), (String.eqb_spec (Address o) "");
    simpl; split; intros; try discriminate; try tauto.
Qed.

Lemma checkDest_one_destination (o : Output) :
  Bool.eqb (BucketID o =? "") (Address o =? "") = false <-> one_destination o.
Proof.
  unfold one_destination.
  destruct (String.eqb_spec (BucketID o) ""), (String.eqb_spec (Address o) "");
    simpl; split; intros; try discriminate; try tauto.
Qed.

(** The first loop stops at the first output that is not well shaped. *)
Lemma Issue_checkDests_first outs : forall k i o,
  nth_error outs i = Some o ->
  both_or_neither o ->
  (forall j o', j < i -> nth_error outs j = Some o' -> ~ both_or_neither o') ->
  Issue_checkDests k outs =
  inl (WithDetailf ErrBadOutDest "output index=%d" [ArgInt (Z.of_nat (k + i))]).
Proof.
  induction outs as [| o0 outs IH]; intros k i o Hi Hbad Hfirst.
  - destruct i; discriminate.
  - destruct i as [| i]; simpl in *.
    + injection Hi as ->.
      apply checkDest_both_or_neither in Hbad. rewrite Hbad.
      rewrite Nat.add_0_r. reflexivity.
    + destruct (Bool.eqb (BucketID o0 =? "") (Address o0 =? "")) eqn:E.
      * exfalso. apply (Hfirst 0 o0); [lia | reflexivity |].
        now apply checkDest_both_or_neither.
      * rewrite (IH (S k) i o Hi Hbad).
        -- now rewrite Nat.add_succ_r.
        -- intros j o' Hj Hn. apply (Hfirst (S j) o'); [lia | exact Hn].
Qed.

Lemma Issue_checkDests_ok outs : forall k,
  Issue_checkDests k outs = inr tt <-> Forall one_destination outs.
Proof.
  induction outs as [| o outs IH]; intros k; simpl.
  - split; auto.
  - destruct (Bool.eqb (BucketID o =? "") (Address o =? "")) eqn:E.
    + split; [discriminate |].
      intros HF. inversion HF as [| ? ? H1 _]; subst.
      apply checkDest_one_destination in H1. congruence.
    + rewrite IH. split.
      * intros HF. constructor; [now apply checkDest_one_destination | exact HF].
      * intros HF. now inversion HF.
Qed.

Lemma addressRequests_app cs1 cs2 :
  addressRequests (cs1 ++ cs2) = addressRequests cs1 ++ addressRequests cs2.
Proof.
  induction cs1 as [| [a | a b] cs IH]; simpl; congruence.
Qed.

(** C8: when the lookup of the asset fails, [Issue] fails with the error
    of the lookup annotated with the asset identifier, and returns no
    result. *)
Theorem Issue_asset_not_found ctx assetID outs s err w :
  appdb_AssetByID ctx assetID (world s) = (inl err, w) ->
  exists e,
    Issue ctx assetID outs s = (inl e, after_lookup s assetID w) /\
    e = WithDetailf err "get asset with ID %q" [ArgString assetID] /\
    Root e = Root err /\
    In ("get asset with ID %q", [ArgString assetID]) (annotations e).
Proof.
  intros Hl. eexists. rewrite Issue_steps, Hl.
  split; [reflexivity |]. split; [reflexivity |].
  split; [reflexivity | left; reflexivity].
Qed.

(** C9: the lookup of the asset comes first.  When it fails, [Issue]
    returns the lookup's error whatever the outputs are, also when one of
    them names both kinds of destination or neither; the outcome is the
    same for every list of outputs, and the only call made to the stores
    is the lookup, so no address is provisioned. *)
Theorem Issue_lookup_precedes_outputs ctx assetID outs s err w :
  appdb_AssetByID ctx assetID (world s) = (inl err, w) ->
  Issue ctx assetID outs s =
    (inl (WithDetailf err "get asset with ID %q" [ArgString assetID]),
     after_lookup s assetID w) /\
  (forall outs', Issue ctx assetID outs' s = Issue ctx assetID outs s) /\
  calls (snd (Issue ctx assetID outs s)) = calls s ++ [CallAssetByID assetID] /\
  addressRequests (calls (snd (Issue ctx assetID outs s)))
    = addressRequests (calls s).
Proof.
  intros Hl.
  assert (E : forall o, Issue ctx assetID o s =
    (inl (WithDetailf err "get asset with ID %q" [ArgString assetID]),
     after_lookup s assetID w)).
  { intros o. rewrite Issue_steps, Hl. reflexivity. }
  split; [apply E |]. split; [intros; now rewrite !E |].
  rewrite E. simpl. split; [reflexivity |].
  rewrite addressRequests_app. apply app_nil_r.
Qed.

(** C2: with a valid asset, when some output names both kinds of
    destination or neither, [Issue] fails with [ErrBadOutDest] annotated
    with the index of the first such output; no result is returned and
    [CreateAddress] is not called for any output. *)
Theorem Issue_bad_destination ctx assetID outs s a w i o :
  appdb_AssetByID ctx assetID (world s) = (inr a, w) ->
  nth_error outs i = Some o ->
  both_or_neither o ->
  (forall j o', j < i -> nth_error outs j = Some o' -> ~ both_or_neither o') ->
  exists e s',
    Issue ctx assetID outs s = (inl e, s') /\
    e = WithDetailf ErrBadOutDest "output index=%d" [ArgInt (Z.of_nat i)] /\
    Root e = Root ErrBadOutDest /\
    s' = after_lookup s assetID w /\
    addressRequests (calls s') = addressRequests (calls s).
Proof.
  intros Hl Hi Hbad Hfirst.
  do 2 eexists. rewrite Issue_steps, Hl.
  rewrite (Issue_checkDests_first outs 0 i o Hi Hbad Hfirst). simpl.
  split; [reflexivity |]. split; [reflexivity |]. split; [reflexivity |].
  split; [reflexivity |].
  unfold after_lookup; simpl.
  rewrite addressRequests_app. apply app_nil_r.
Qed.

(** ** Resolution of one output *)

Lemma PKScript_resolved ctx o s script recv s' :
  Output_PKScript o ctx s = (inr (script, recv), s') ->
  resolved ctx s o script recv s'.
Proof.
  unfold Output_PKScript, bind, onError, CreateAddress, ret, fail.
  destruct (String.eqb_spec (BucketID o) "") as [Hb | Hb]; simpl.
  - destruct (txscript_AddrPkScript (Address o)) as [e | sc] eqn:E;
      intros Heq; inversion Heq; subst.
    now constructor.
  - fold (addressRequest o).
    destruct (asset_CreateAddress ctx (addressRequest o) false (world s))
      as [[e | addr] w] eqn:E; intros Heq; inversion Heq; subst.
    now apply resolved_bucket.
Qed.

Lemma resolved_PKScript ctx o s script recv s' :
  resolved ctx s o script recv s' ->
  Output_PKScript o ctx s = (inr (script, recv), s').
Proof.
  intros Hr. unfold Output_PKScript, bind, onError, CreateAddress, ret, fail.
  destruct Hr as [s o script Hb He | s o addr w Hb Hc].
  - rewrite Hb, He. reflexivity.
  - apply String.eqb_neq in Hb. rewrite Hb. simpl.
    fold (addressRequest o). rewrite Hc. reflexivity.
Qed.

Lemma PKScript_bad_address ctx o s e :
  BucketID o = "" ->
  txscript_AddrPkScript (Address o) = inl e ->
  Output_PKScript o ctx s =
  (inl (Wrapf ErrBadAddr "output pkscript error addr=%v" [ArgString (Address o)]),
   s).
Proof.
  intros Hb He. unfold Output_PKScript. rewrite Hb, He. reflexivity.
Qed.

Lemma resolved_seq_length ctx s outs rs s' :
  resolved_seq ctx s outs rs s' -> List.length rs = List.length outs.
Proof. induction 1; simpl; congruence. Qed.

(** ** The loop of [addAssetIssuanceOutputs] *)

Lemma addAssetIssuanceOutputs_from_step ctx a i o outs tx acc s :
  addAssetIssuanceOutputs_from ctx a i (o :: outs) tx acc s =
  match Output_PKScript o ctx s with
  | (inl err, s1) =>
      (inl (WithDetailf err "output %d" [ArgInt (Z.of_nat i)]), s1)
  | (inr r, s1) =>
      addAssetIssuanceOutputs_from ctx a (S i) outs
        (wire.AddTxOut tx (wire.NewTxOut (appdb.Hash a) (Amount o) (fst r)))
        (acc ++ [snd r]) s1
  end.
Proof.
  simpl. unfold bind, onError.
  destruct (Output_PKScript o ctx s) as [[err | r] s1]; reflexivity.
Qed.

Lemma addAssetIssuanceOutputs_from_ok ctx a outs : forall i tx acc s tx' recvs s',
  addAssetIssuanceOutputs_from ctx a i outs tx acc s = (inr (tx', recvs), s') ->
  exists rs,
    resolved_seq ctx s outs rs s' /\
    wire.TxIns tx' = wire.TxIns tx /\
    wire.TxOuts tx' = wire.TxOuts tx ++ issuedOutputs a outs rs /\
    recvs = acc ++ map snd rs.
Proof.
  induction outs as [| o outs IH]; intros i tx acc s tx' recvs s' Hrun.
  - inversion Hrun; subst. exists []. unfold issuedOutputs; simpl.
    rewrite !app_nil_r. repeat split. constructor.
  - rewrite addAssetIssuanceOutputs_from_step in Hrun.
    destruct (Output_PKScript o ctx s) as [[err | [script recv]] s1] eqn:E;
      [discriminate |].
    apply PKScript_resolved in E.
    apply IH in Hrun as (rs & Hrs & Hin & Hout & Hrecv).
    exists ((script, recv) :: rs). simpl in *.
    split; [econstructor; eassumption |].
    split; [exact Hin |].
    split.
    + rewrite Hout, <- app_assoc. reflexivity.
    + rewrite Hrecv, <- app_assoc. reflexivity.
Qed.

Lemma addAssetIssuanceOutputs_from_resolved ctx a s outs rs s' :
  resolved_seq ctx s outs rs s' ->
  forall i tx acc,
  addAssetIssuanceOutputs_from ctx a i outs tx acc s =
  (inr ({| wire.TxIns := wire.TxIns tx;
           wire.TxOuts := wire.TxOuts tx ++ issuedOutputs a outs rs |},
        acc ++ map snd rs), s').
Proof.
  induction 1 as [s | s o script recv s1 outs rs s2 Hr _ IH]; intros i tx acc.
  - unfold issuedOutputs; simpl. rewrite !app_nil_r. now destruct tx.
  - rewrite addAssetIssuanceOutputs_from_step, (resolved_PKScript _ _ _ _ _ _ Hr).
    rewrite IH. simpl. unfold issuedOutputs. simpl.
    rewrite <- !app_assoc. reflexivity.
Qed.

(** The loop stops at the first output that does not resolve: after a
    prefix that resolves, it goes on with the rest. *)
Lemma addAssetIssuanceOutputs_from_app ctx a s outs1 rs s1 :
  resolved_seq ctx s outs1 rs s1 ->
  forall outs2 i tx acc,
  addAssetIssuanceOutputs_from ctx a i (outs1 ++ outs2) tx acc s =
  addAssetIssuanceOutputs_from ctx a (i + List.length outs1) outs2
    {| wire.TxIns := wire.TxIns tx;
       wire.TxOuts := wire.TxOuts tx ++ issuedOutputs a outs1 rs |}
    (acc ++ map snd rs) s1.
Proof.
  induction 1 as [s | s o script recv s1 outs rs s2 Hr _ IH];
    intros outs2 i tx acc.
  - unfold issuedOutputs; simpl. rewrite !app_nil_r, Nat.add_0_r. now destruct tx.
  - rewrite <- app_comm_cons.
    rewrite addAssetIssuanceOutputs_from_step, (resolved_PKScript _ _ _ _ _ _ Hr).
    rewrite IH. simpl. unfold issuedOutputs. simpl.
    rewrite <- !app_assoc, Nat.add_succ_r. reflexivity.
Qed.

(** What a successful call went through. *)
Lemma Issue_success ctx assetID outs s res s' :
  Issue ctx assetID outs s = (inr res, s') ->
  exists a w rs,
    appdb_AssetByID ctx assetID (world s) = (inr a, w) /\
    Forall one_destination outs /\
    resolved_seq ctx (after_lookup s assetID w) outs rs s' /\
    res = {| Unsigned :=
               wire_Serialize {| wire.TxIns := [nullInput];
                                 wire.TxOuts := issuedOutputs a outs rs |};
             BlockChain := "sandbox";
             Inputs :=
               [issuanceInput a {| wire.TxIns := [nullInput];
                                   wire.TxOuts := issuedOutputs a outs rs |}];
             OutRecvs := map snd rs |}.
Proof.
  rewrite Issue_steps.
  destruct (appdb_AssetByID ctx assetID (world s)) as [[err | a] w];
    [discriminate |].
  destruct (Issue_checkDests 0 outs) as [err | []] eqn:Hc; [discriminate |].
  apply Issue_checkDests_ok in Hc.
  unfold addAssetIssuanceOutputs.
  destruct (addAssetIssuanceOutputs_from ctx a 0 outs Issue_tx0 []
              (after_lookup s assetID w)) as [[err | [tx recvs]] s1] eqn:Ha;
    [discriminate |].
  intros Heq. inversion Heq; subst s1 res. clear Heq.
  apply addAssetIssuanceOutputs_from_ok in Ha as (rs & Hrs & Hin & Hout & Hrecv).
  exists a, w, rs. repeat split; try assumption.
  simpl in *. subst recvs.
  destruct tx as [ins outs']. simpl in *. subst ins outs'. reflexivity.
Qed.

(** And back: a found asset, well-shaped outputs that all resolve, and
    [Issue] succeeds. *)
Lemma Issue_succeeds ctx assetID outs s a w rs s' :
  appdb_AssetByID ctx assetID (world s) = (inr a, w) ->
  Forall one_destination outs ->
  resolved_seq ctx (after_lookup s assetID w) outs rs s' ->
  Issue ctx assetID outs s =
  (inr {| Unsigned :=
            wire_Serialize {| wire.TxIns := [nullInput];
                              wire.TxOuts := issuedOutputs a outs rs |};
          BlockChain := "sandbox";
          Inputs :=
            [issuanceInput a {| wire.TxIns := [nullInput];
                                wire.TxOuts := issuedOutputs a outs rs |}];
          OutRecvs := map snd rs |}, s').
Proof.
  intros Hl Hc Hrs. rewrite Issue_steps, Hl.
  apply (Issue_checkDests_ok outs 0) in Hc. rewrite Hc.
  unfold addAssetIssuanceOutputs.
  rewrite (addAssetIssuanceOutputs_from_resolved ctx a _ _ _ _ Hrs).
  reflexivity.
Qed.

(** ** Positions *)

Lemma issuedOutputs_length a outs rs :
  List.length rs = List.length outs ->
  List.length (issuedOutputs a outs rs) = List.length outs.
Proof.
  intros Hl. unfold issuedOutputs.
  rewrite length_map, length_combine, Hl. apply Nat.min_id.
Qed.

Lemma issuedOutputs_nth a outs : forall rs i o r,
  nth_error outs i = Some o ->
  nth_error rs i = Some r ->
  nth_error (issuedOutputs a outs rs) i =
  Some {| wire.AssetID := appdb.Hash a;
          wire.Value := Amount o;
          wire.PkScript := fst r |}.
Proof.
  induction outs as [| o0 outs IH]; intros rs i o r Ho Hr.
  - destruct i; discriminate.
  - destruct rs as [| r0 rs]; [destruct i; discriminate |].
    destruct i as [| i]; simpl in *.
    + injection Ho as ->. injection Hr as ->. reflexivity.
    + now apply IH.
Qed.

(** The [i]-th output of a sequence that resolves is resolved in the
    state left by the [i] outputs before it. *)
Lemma resolved_seq_nth ctx s outs rs s' :
  resolved_seq ctx s outs rs s' ->
  forall i o, nth_error outs i = Some o ->
  exists script recv si si',
    nth_error rs i = Some (script, recv) /\
    resolved_seq ctx s (firstn i outs) (firstn i rs) si /\
    resolved ctx si o script recv si'.
Proof.
  induction 1 as [s | s o0 script0 recv0 s1 outs rs s2 Hr Hseq IH]; intros i o Hi.
  - destruct i; discriminate.
  - destruct i as [| i]; simpl in *.
    + injection Hi as ->. exists script0, recv0, s, s1.
      repeat split; [constructor | exact Hr].
    + destruct (IH i o Hi) as (script & recv & si & si' & Hn & Hpre & Hres).
      exists script, recv, si, si'. repeat split; try assumption.
      econstructor; eassumption.
Qed.

(** The transaction that is serialized is the one
    [addAssetIssuanceOutputs] leaves behind the pointer. *)
Lemma Issue_transaction ctx assetID outs s res s' :
  Issue ctx assetID outs s = (inr res, s') ->
  exists a w tx,
    appdb_AssetByID ctx assetID (world s) = (inr a, w) /\
    addAssetIssuanceOutputs ctx Issue_tx0 a outs (after_lookup s assetID w)
      = (inr (tx, OutRecvs res), s') /\
    Unsigned res = wire_Serialize tx /\
    Inputs res = [issuanceInput a tx].
Proof.
  rewrite Issue_steps.
  destruct (appdb_AssetByID ctx assetID (world s)) as [[err | a] w] eqn:Hl;
    [discriminate |].
  destruct (Issue_checkDests 0 outs) as [err | []]; [discriminate |].
  destruct (addAssetIssuanceOutputs ctx Issue_tx0 a outs
              (after_lookup s assetID w)) as [[err | [tx recvs]] s1] eqn:Hadd;
    [discriminate |].
  intros Heq. inversion Heq; subst. simpl.
  exists a, w, tx. split; [reflexivity |]. split; [exact Hadd |].
  split; reflexivity.
Qed.

Lemma addAssetIssuanceOutputs_resolved ctx a s outs rs s' :
  resolved_seq ctx s outs rs s' ->
  addAssetIssuanceOutputs ctx Issue_tx0 a outs s =
  (inr ({| wire.TxIns := [nullInput];
           wire.TxOuts := issuedOutputs a outs rs |}, map snd rs), s').
Proof.
  intros Hrs. unfold addAssetIssuanceOutputs.
  now rewrite (addAssetIssuanceOutputs_from_resolved ctx a _ _ _ _ Hrs).
Qed.

(** C1: on success, the outputs of the transaction and the receivers of
    the result follow the requests, one for one and in order.  The
    transaction has as many outputs as there are requests and the result
    as many receivers; the [i]-th output carries the hash of the asset,
    the amount of the [i]-th request and the script it resolved to; the
    [i]-th receiver is nil for a raw address, and for a bucket it names
    the wallet, bucket and index of the address that [CreateAddress]
    provisioned for that request, in the state left by the requests
    before it. *)
Theorem Issue_outputs_follow_requests ctx assetID outs s res s' :
  Issue ctx assetID outs s = (inr res, s') ->
  exists a w tx rs,
    appdb_AssetByID ctx assetID (world s) = (inr a, w) /\
    addAssetIssuanceOutputs ctx Issue_tx0 a outs (after_lookup s assetID w)
      = (inr (tx, OutRecvs res), s') /\
    Unsigned res = wire_Serialize tx /\
    List.length (wire.TxOuts tx) = List.length outs /\
    List.length (OutRecvs res) = List.length outs /\
    Forall one_destination outs /\
    resolved_seq ctx (after_lookup s assetID w) outs rs s' /\
    forall i o, nth_error outs i = Some o ->
      exists script recv si,
        resolved_seq ctx (after_lookup s assetID w)
          (firstn i outs) (firstn i rs) si /\
        nth_error (wire.TxOuts tx) i =
          Some {| wire.AssetID := appdb.Hash a;
                  wire.Value := Amount o;
                  wire.PkScript := script |} /\
        nth_error (OutRecvs res) i = Some recv /\
        (BucketID o = "" ->
           txscript_AddrPkScript (Address o) = inr script /\ recv = None) /\
        (BucketID o <> "" ->
           exists addr w',
             asset_CreateAddress ctx (addressRequest o) false (world si)
               = (inr addr, w') /\
             script = appdb.PKScript addr /\
             recv = Some {| utxodb.WalletID := appdb.WalletID addr;
                            utxodb.BucketID := appdb.BucketID addr;
                            utxodb.AddrIndex := appdb.Index addr;
                            utxodb.IsChange := isChange o |}).
Proof.
  intros Hrun.
  apply Issue_success in Hrun as (a & w & rs & Hl & Hshape & Hrs & ->).
  pose proof (resolved_seq_length _ _ _ _ _ Hrs) as Hlen.
  exists a, w, {| wire.TxIns := [nullInput];
                  wire.TxOuts := issuedOutputs a outs rs |}, rs.
  simpl. split; [exact Hl |].
  split; [exact (addAssetIssuanceOutputs_resolved ctx a _ _ _ _ Hrs) |].
  split; [reflexivity |].
  split; [now apply issuedOutputs_length |].
  split; [now rewrite length_map |].
  split; [exact Hshape |].
  split; [exact Hrs |].
  intros i o Hi.
  destruct (resolved_seq_nth _ _ _ _ _ Hrs i o Hi)
    as (script & recv & si & si' & Hn & Hpre & Hres).
  exists script, recv, si.
  split; [exact Hpre |].
  split; [exact (issuedOutputs_nth a outs rs i o _ Hi Hn) |].
  split; [now rewrite nth_error_map, Hn |].
  inversion Hres; subst; split; intros Hb; try contradiction; eauto.
Qed.

(** C3: on success, the digest of the issuance input is the hash of the
    hash of the serialized transaction, and the bytes returned in
    [Unsigned] are the bytes that were digested; two results with the
    same bytes have the same digest. *)
Theorem Issue_signature_data ctx assetID outs s res s' :
  Issue ctx assetID outs s = (inr res, s') ->
  exists a w tx input,
    appdb_AssetByID ctx assetID (world s) = (inr a, w) /\
    addAssetIssuanceOutputs ctx Issue_tx0 a outs (after_lookup s assetID w)
      = (inr (tx, OutRecvs res), s') /\
    Unsigned res = wire_Serialize tx /\
    Inputs res = [input] /\
    SignatureData input = hash (hash (wire_Serialize tx)) /\
    SignatureData input = DoubleSha256 (Unsigned res) /\
    forall ctx2 assetID2 outs2 s2 res2 s2',
      Issue ctx2 assetID2 outs2 s2 = (inr res2, s2') ->
      Unsigned res2 = Unsigned res ->
      map SignatureData (Inputs res2) = map SignatureData (Inputs res).
Proof.
  intros Hrun.
  apply Issue_transaction in Hrun as (a & w & tx & Hl & Hadd & Hbytes & Hin).
  exists a, w, tx, (issuanceInput a tx).
  split; [exact Hl |]. split; [exact Hadd |]. split; [exact Hbytes |].
  split; [exact Hin |]. split; [reflexivity |].
  split; [now rewrite Hbytes |].
  intros ctx2 assetID2 outs2 s2 res2 s2' Hrun2 Heq.
  apply Issue_transaction in Hrun2 as (a2 & w2 & tx2 & _ & _ & Hbytes2 & Hin2).
  rewrite Hin, Hin2. simpl. unfold DoubleSha256.
  now rewrite <- Hbytes, <- Hbytes2, Heq.
Qed.

Lemma inputSigs_from_map keys : forall sigs,
  inputSigs_from keys sigs = sigs ++ map placeholder keys.
Proof.
  induction keys as [| k keys IH]; intros sigs; simpl.
  - now rewrite app_nil_r.
  - rewrite IH, <- app_assoc. reflexivity.
Qed.

Lemma inputSigs_map keys : inputSigs keys = map placeholder keys.
Proof. apply inputSigs_from_map. Qed.

(** C4: on success, the issuance input has one placeholder per key that
    [hdkey.Derive] returned for the asset's root keys and issuance path,
    in the order of the keys; each pairs the string of the key's root
    with the path the key holds, which is the issuance path whenever the
    derived keys record the path they were derived along.  When no key is
    derived, the call succeeds all the same, with no placeholder. *)
Theorem Issue_signature_placeholders ctx assetID outs s :
  (forall res s',
     Issue ctx assetID outs s = (inr res, s') ->
     exists a w input,
       appdb_AssetByID ctx assetID (world s) = (inr a, w) /\
       Inputs res = [input] /\
       List.length (Sigs input) =
         List.length (hdkey_Derive (appdb.Keys a) (appdb_IssuancePath a)) /\
       (forall i k,
          nth_error (hdkey_Derive (appdb.Keys a) (appdb_IssuancePath a)) i
            = Some k ->
          nth_error (Sigs input) i =
            Some {| XPub := XKey_String (hdkey.Root k);
                    DerivationPath := hdkey.Path k |}) /\
       ((forall k,
           In k (hdkey_Derive (appdb.Keys a) (appdb_IssuancePath a)) ->
           hdkey.Path k = appdb_IssuancePath a) ->
        forall sg, In sg (Sigs input) ->
                   DerivationPath sg = appdb_IssuancePath a)) /\
  (forall a w rs s',
     appdb_AssetByID ctx assetID (world s) = (inr a, w) ->
     Forall one_destination outs ->
     resolved_seq ctx (after_lookup s assetID w) outs rs s' ->
     hdkey_Derive (appdb.Keys a) (appdb_IssuancePath a) = [] ->
     exists res input,
       Issue ctx assetID outs s = (inr res, s') /\
       Inputs res = [input] /\
       Sigs input = []).
Proof.
  split.
  - intros res s' Hrun.
    apply Issue_success in Hrun as (a & w & rs & Hl & _ & _ & ->).
    exists a, w. eexists. simpl.
    split; [exact Hl |]. split; [reflexivity |]. simpl.
    rewrite inputSigs_map.
    split; [apply length_map |].
    split.
    + intros i k Hk. rewrite nth_error_map, Hk. reflexivity.
    + intros Hpath sg Hin. apply in_map_iff in Hin as (k & <- & Hk).
      simpl. now apply Hpath.
  - intros a w rs s' Hl Hc Hrs Hkeys.
    do 2 eexists.
    split; [exact (Issue_succeeds _ _ _ _ _ _ _ _ Hl Hc Hrs) |].
    simpl. split; [reflexivity |]. simpl.
    now rewrite Hkeys.
Qed.

(** C6: the transaction [Issue] starts from has exactly one input, with
    a null reference to a prior output (thirty-two zero bytes, index 0)
    and an empty signature script; on success the serialized transaction
    still has that input alone, and the result holds exactly one input
    descriptor, the issuance input. *)
Theorem Issue_single_null_input ctx assetID outs s :
  wire.TxIns Issue_tx0 =
    [{| wire.PreviousOutPoint :=
          {| wire.Hash := repeat x00 32; wire.Index := 0 |};
        wire.SignatureScript := [] |}] /\
  wire.TxOuts Issue_tx0 = [] /\
  forall res s',
    Issue ctx assetID outs s = (inr res, s') ->
    exists a w tx,
      appdb_AssetByID ctx assetID (world s) = (inr a, w) /\
      addAssetIssuanceOutputs ctx Issue_tx0 a outs (after_lookup s assetID w)
        = (inr (tx, OutRecvs res), s') /\
      Unsigned res = wire_Serialize tx /\
      wire.TxIns tx = wire.TxIns Issue_tx0 /\
      Inputs res = [issuanceInput a tx] /\
      List.length (Inputs res) = 1.
Proof.
  split; [reflexivity |]. split; [reflexivity |].
  intros res s' Hrun.
  apply Issue_success in Hrun as (a & w & rs & Hl & _ & Hrs & ->).
  exists a, w. eexists. simpl.
  split; [exact Hl |].
  split; [exact (addAssetIssuanceOutputs_resolved ctx a _ _ _ _ Hrs) |].
  split; [reflexivity |].
  split; [reflexivity |]. split; reflexivity.
Qed.

(** ** The asset identifier of an output *)

Lemma PKScript_same_but_AssetID ctx o o' :
  same_but_AssetID o o' -> Output_PKScript o ctx = Output_PKScript o' ctx.
Proof.
  destruct o, o'. unfold same_but_AssetID. simpl.
  intros (-> & -> & -> & ->). reflexivity.
Qed.

Lemma Issue_checkDests_same_but_AssetID outs outs' :
  Forall2 same_but_AssetID outs outs' ->
  forall k, Issue_checkDests k outs = Issue_checkDests k outs'.
Proof.
  induction 1 as [| o o' outs outs' Ho _ IH]; intros k; simpl.
  - reflexivity.
  - destruct Ho as (-> & -> & _). now rewrite IH.
Qed.

Lemma addAssetIssuanceOutputs_from_same_but_AssetID ctx a outs outs' :
  Forall2 same_but_AssetID outs outs' ->
  forall i tx acc s,
    addAssetIssuanceOutputs_from ctx a i outs tx acc s =
    addAssetIssuanceOutputs_from ctx a i outs' tx acc s.
Proof.
  induction 1 as [| o o' outs outs' Ho _ IH]; intros i tx acc s.
  - reflexivity.
  - rewrite !addAssetIssuanceOutputs_from_step.
    rewrite (PKScript_same_but_AssetID ctx o o' Ho).
    destruct Ho as (_ & _ & -> & _).
    destruct (Output_PKScript o' ctx s) as [[err | r] s1]; [reflexivity |].
    apply IH.
Qed.

(** C5, as the code has it: [Issue] does not read the [AssetID] field
    of an output.  Two lists of outputs that differ only in that field
    give the same outcome, and on success every output of the
    transaction carries the hash of the asset found under [assetID]. *)
Theorem Issue_ignores_output_AssetID ctx assetID outs outs' s :
  Forall2 same_but_AssetID outs outs' ->
  Issue ctx assetID outs s = Issue ctx assetID outs' s /\
  forall res s',
    Issue ctx assetID outs s = (inr res, s') ->
    exists a w tx,
      appdb_AssetByID ctx assetID (world s) = (inr a, w) /\
      Unsigned res = wire_Serialize tx /\
      List.length (wire.TxOuts tx) = List.length outs /\
      Forall (fun to => wire.AssetID to = appdb.Hash a) (wire.TxOuts tx).
Proof.
  intros Hsame. split.
  - rewrite !Issue_steps.
    destruct (appdb_AssetByID ctx assetID (world s)) as [[err | a] w];
      [reflexivity |].
    rewrite (Issue_checkDests_same_but_AssetID outs outs' Hsame 0).
    unfold addAssetIssuanceOutputs.
    now rewrite (addAssetIssuanceOutputs_from_same_but_AssetID ctx a _ _ Hsame).
  - intros res s' Hrun.
    apply Issue_success in Hrun as (a & w & rs & Hl & _ & Hrs & ->).
    pose proof (resolved_seq_length _ _ _ _ _ Hrs) as Hlen.
    exists a, w, {| wire.TxIns := [nullInput];
                    wire.TxOuts := issuedOutputs a outs rs |}.
    simpl. split; [exact Hl |]. split; [reflexivity |].
    split; [now apply issuedOutputs_length |].
    unfold issuedOutputs. apply Forall_forall.
    intros to Hin. apply in_map_iff in Hin as (p & <- & _). reflexivity.
Qed.

(** ** Malformed addresses *)

Lemma addAssetIssuanceOutputs_from_bad_address ctx a outs : forall i o e k tx acc s,
  nth_error outs i = Some o ->
  BucketID o = "" ->
  txscript_AddrPkScript (Address o) = inl e ->
  exists err s',
    addAssetIssuanceOutputs_from ctx a k outs tx acc s = (inl err, s').
Proof.
  induction outs as [| o0 outs IH]; intros i o e k tx acc s Hi Hb He.
  - destruct i; discriminate.
  - rewrite addAssetIssuanceOutputs_from_step.
    destruct i as [| i]; simpl in Hi.
    + injection Hi as ->.
      rewrite (PKScript_bad_address ctx o s e Hb He). eauto.
    + destruct (Output_PKScript o0 ctx s) as [[err | r] s1]; [eauto |].
      eapply IH; eassumption.
Qed.

(** C7, as the code has it: with a valid asset and well-shaped outputs,
    when some raw-address output is malformed, [Issue] fails and returns
    no result.  When every output before it resolves, the error is
    [ErrBadAddr] annotated with the address string and the index of that
    output, and [PKScript] gives neither script nor receiver for it. *)
Theorem Issue_bad_address ctx assetID outs s a w i o e :
  appdb_AssetByID ctx assetID (world s) = (inr a, w) ->
  Forall one_destination outs ->
  nth_error outs i = Some o ->
  BucketID o = "" ->
  txscript_AddrPkScript (Address o) = inl e ->
  (exists err s', Issue ctx assetID outs s = (inl err, s')) /\
  (forall rs si,
     resolved_seq ctx (after_lookup s assetID w) (firstn i outs) rs si ->
     Issue ctx assetID outs s = (inl (badAddrError (Address o) i), si) /\
     Root (badAddrError (Address o) i) = ErrBadAddr /\
     In ("output pkscript error addr=%v", [ArgString (Address o)])
        (annotations (badAddrError (Address o) i)) /\
     In ("output %d", [ArgInt (Z.of_nat i)])
        (annotations (badAddrError (Address o) i)) /\
     Output_PKScript o ctx si =
       (inl (Wrapf ErrBadAddr "output pkscript error addr=%v"
                   [ArgString (Address o)]), si)).
Proof.
  intros Hl Hc Hi Hb He.
  pose proof Hc as Hc'. apply (Issue_checkDests_ok outs 0) in Hc'.
  split.
  - rewrite Issue_steps, Hl, Hc'. unfold addAssetIssuanceOutputs.
    destruct (addAssetIssuanceOutputs_from_bad_address ctx a outs i o e 0
                Issue_tx0 [] (after_lookup s assetID w) Hi Hb He)
      as (err & s' & ->).
    eauto.
  - intros rs si Hpre.
    split; [| split; [reflexivity | split; [| split]]].
    + rewrite Issue_steps, Hl, Hc'. unfold addAssetIssuanceOutputs.
      assert (Hsplit : outs = firstn i outs ++ o :: skipn (S i) outs).
      { clear -Hi. revert i Hi.
        induction outs as [| o0 outs IH]; intros [| i] Hi; try discriminate;
          simpl in *.
        - now injection Hi as ->.
        - f_equal. now apply IH. }
      rewrite Hsplit at 1.
      rewrite (addAssetIssuanceOutputs_from_app ctx a _ _ _ _ Hpre).
      rewrite addAssetIssuanceOutputs_from_step.
      rewrite (PKScript_bad_address ctx o si e Hb He).
      rewrite length_firstn, Nat.min_l.
      * reflexivity.
      * apply Nat.lt_le_incl, nth_error_Some. congruence.
    + simpl. right. right. left. reflexivity.
    + simpl. right. left. reflexivity.
    + exact (PKScript_bad_address ctx o si e Hb He).
Qed.

(** ** The change flag *)

Lemma addressRequests_In cs addr :
  In addr (addressRequests cs) <-> exists save, In (CallCreateAddress addr save) cs.
Proof.
  induction cs as [| [id | addr' save'] cs IH]; simpl.
  - split; [intros [] | intros (_ & [])].
  - rewrite IH. split; intros (save & H); exists save;
      [now right | destruct H as [H | H]; [discriminate | exact H]].
  - split.
    + intros [<- | Hin]; [exists save'; now left |].
      apply IH in Hin as (save & Hin). exists save. now right.
    + intros (save & [Heq | Hin]); [inversion Heq; now left |].
      right. apply IH. now exists save.
Qed.

(** The only call [PKScript] can make is [CreateAddress], on the record
    built from the output and with [save] false. *)
Lemma PKScript_calls ctx o s r s1 :
  Output_PKScript o ctx s = (r, s1) ->
  exists new,
    calls s1 = calls s ++ new /\
    forall c, In c new -> c = CallCreateAddress (addressRequest o) false.
Proof.
  unfold Output_PKScript, bind, onError, CreateAddress, ret, fail.
  destruct (negb (BucketID o =? "")).
  - fold (addressRequest o).
    destruct (asset_CreateAddress ctx (addressRequest o) false (world s))
      as [[e | addr] w]; intros Heq; inversion Heq; subst; simpl;
      (eexists; split; [reflexivity |]);
      intros c [<- | []]; reflexivity.
  - destruct (txscript_AddrPkScript (Address o)); intros Heq;
      inversion Heq; subst; exists []; (split; [now rewrite app_nil_r |]);
      intros c [].
Qed.

Lemma addAssetIssuanceOutputs_from_calls ctx a outs : forall i tx acc s r s',
  addAssetIssuanceOutputs_from ctx a i outs tx acc s = (r, s') ->
  exists new,
    calls s' = calls s ++ new /\
    forall c, In c new ->
              exists o, In o outs /\ c = CallCreateAddress (addressRequest o) false.
Proof.
  induction outs as [| o outs IH]; intros i tx acc s r s' Hrun.
  - inversion Hrun; subst. exists []. split; [now rewrite app_nil_r |].
    intros c [].
  - rewrite addAssetIssuanceOutputs_from_step in Hrun.
    destruct (Output_PKScript o ctx s) as [[err | p] s1] eqn:E;
      apply PKScript_calls in E as (new1 & Hc1 & Hr1).
    + inversion Hrun; subst. exists new1. split; [exact Hc1 |].
      intros c Hin. exists o. split; [now left | now apply Hr1].
    + apply IH in Hrun as (new2 & Hc2 & Hr2).
      exists (new1 ++ new2). split.
      * rewrite Hc2, Hc1, app_assoc. reflexivity.
      * intros c Hin.
        apply in_app_or in Hin as [Hin | Hin].
        -- exists o. split; [now left | now apply Hr1].
        -- destruct (Hr2 c Hin) as (o' & Ho' & ->).
           exists o'. split; [now right | reflexivity].
Qed.

Lemma resolved_seq_receivers ctx s outs rs s' :
  resolved_seq ctx s outs rs s' ->
  forall recv, In (Some recv) (map snd rs) ->
  exists o, In o outs /\ utxodb.IsChange recv = isChange o.
Proof.
  induction 1 as [s | s o script recv0 s1 outs rs s2 Hr _ IH];
    intros recv Hin; simpl in Hin.
  - destruct Hin.
  - destruct Hin as [Heq | Hin].
    + exists o. split; [now left |].
      destruct Hr; [discriminate |].
      injection Heq as <-. reflexivity.
    + destruct (IH recv Hin) as (o' & Ho' & Hflag).
      exists o'. split; [now right | exact Hflag].
Qed.

(** C10: the change flag of a receiver, and of the address record
    handed to [CreateAddress], is the [isChange] field of the output.
    For outputs whose [isChange] is not set, as every output coming from
    a caller outside the package is, every address requested during the
    call, whether the call succeeds or fails, is requested with
    [IsChange] false, and every receiver of a result has [IsChange]
    false. *)
Theorem Issue_never_change ctx assetID outs s r s' :
  Forall not_change outs ->
  Issue ctx assetID outs s = (r, s') ->
  exists new,
    calls s' = calls s ++ new /\
    (forall addr, In addr (addressRequests new) ->
                  appdb.IsChange addr = false) /\
    (forall save addr, In (CallCreateAddress addr save) new -> save = false) /\
    (forall res recv,
       r = inr res -> In (Some recv) (OutRecvs res) ->
       utxodb.IsChange recv = false).
Proof.
  intros Hflag Hrun.
  rewrite Forall_forall in Hflag.
  assert (Hrecv : forall res recv,
             r = inr res -> In (Some recv) (OutRecvs res) ->
             utxodb.IsChange recv = false).
  { intros res recv -> Hin.
    apply Issue_success in Hrun as (a & w & rs & _ & _ & Hrs & ->).
    simpl in Hin.
    destruct (resolved_seq_receivers _ _ _ _ _ Hrs recv Hin) as (o & Ho & ->).
    now apply Hflag. }
  rewrite Issue_steps in Hrun.
  destruct (appdb_AssetByID ctx assetID (world s)) as [[err | a] w].
  { inversion Hrun; subst. exists [CallAssetByID assetID].
    split; [reflexivity |]. split; [intros addr [] |].
    split; [| exact Hrecv].
    intros save addr [Heq | []]. discriminate. }
  destruct (Issue_checkDests 0 outs) as [err | []].
  { inversion Hrun; subst. exists [CallAssetByID assetID].
    split; [reflexivity |]. split; [intros addr [] |].
    split; [| exact Hrecv].
    intros save addr [Heq | []]. discriminate. }
  unfold addAssetIssuanceOutputs in Hrun.
  destruct (addAssetIssuanceOutputs_from ctx a 0 outs Issue_tx0 []
              (after_lookup s assetID w)) as [r1 s1] eqn:Ha.
  assert (s1 = s') as -> by (destruct r1; now inversion Hrun).
  apply addAssetIssuanceOutputs_from_calls in Ha as (new & Hc & Hreq).
  exists (CallAssetByID assetID :: new).
  split; [rewrite Hc; simpl; rewrite <- app_assoc; reflexivity |].
  split; [| split; [| exact Hrecv]].
  - simpl. intros addr Hin.
    apply addressRequests_In in Hin as (save & Hin).
    destruct (Hreq _ Hin) as (o & Ho & Heq). inversion Heq; subst.
    simpl. now apply Hflag.
  - intros save addr [Heq | Hin]; [discriminate |].
    destruct (Hreq _ Hin) as (o & Ho & Heq). now inversion Heq.
Qed.

End Properties.

(** * Further properties of the package *)
Section Further.
Context {T : ExternalTypes} {C : Collaborators}.
Import asset.

(** ** How [PKScript] fails *)

Lemma PKScript_provisioning_failure ctx o s err w' :
  BucketID o <> "" ->
  asset_CreateAddress ctx (addressRequest o) false (world s) = (inl err, w') ->
  Output_PKScript o ctx s =
  (inl (Wrapf err "output create address error bucket=%v"
              [ArgString (BucketID o)]),
   {| world := w'; calls := calls s ++ [provisionCall o] |}).
Proof.
  intros Hb Hc. unfold Output_PKScript, bind, onError, CreateAddress.
  apply String.eqb_neq in Hb. rewrite Hb. simpl.
  fold (addressRequest o). rewrite Hc. reflexivity.
Qed.

Lemma PKScript_failure ctx o s err s' :
  Output_PKScript o ctx s = (inl err, s') ->
  (BucketID o = "" /\
   (exists e0, txscript_AddrPkScript (Address o) = inl e0) /\
   err = Wrapf ErrBadAddr "output pkscript error addr=%v"
           [ArgString (Address o)] /\
   s' = s) \/
  (BucketID o <> "" /\
   exists cerr w',
     asset_CreateAddress ctx (addressRequest o) false (world s)
       = (inl cerr, w') /\
     err = Wrapf cerr "output create address error bucket=%v"
             [ArgString (BucketID o)] /\
     s' = {| world := w'; calls := calls s ++ [provisionCall o] |}).
Proof.
  unfold Output_PKScript, bind, onError, CreateAddress, ret, fail.
  destruct (String.eqb_spec (BucketID o) "") as [Hb | Hb]; simpl.
  - destruct (txscript_AddrPkScript (Address o)) as [e0 | sc] eqn:E;
      intros Heq; inversion Heq; subst.
    left. repeat split; eauto.
  - fold (addressRequest o).
    destruct (asset_CreateAddress ctx (addressRequest o) false (world s))
      as [[cerr | addr] w'] eqn:E; intros Heq; inversion Heq; subst.
    right. split; [exact Hb |]. exists cerr, w'. repeat split.
Qed.

(** X6: for an output that names a bucket, [PKScript] looks at nothing
    but the bucket and the change flag: the address, asset identifier
    and amount of the output play no part, and the address is never
    encoded. *)
Theorem PKScript_bucket_first ctx o o' :
  BucketID o <> "" ->
  BucketID o' = BucketID o ->
  isChange o' = isChange o ->
  Output_PKScript o' ctx = Output_PKScript o ctx.
Proof.
  destruct o, o'. simpl. intros Hb -> ->.
  unfold Output_PKScript. simpl.
  apply String.eqb_neq in Hb. rewrite Hb. reflexivity.
Qed.

(** ** How the loops fail *)

Lemma Issue_checkDests_failure outs : forall k e,
  Issue_checkDests k outs = inl e ->
  exists i o,
    nth_error outs i = Some o /\
    both_or_neither o /\
    Forall one_destination (firstn i outs) /\
    e = WithDetailf ErrBadOutDest "output index=%d" [ArgInt (Z.of_nat (k + i))].
Proof.
  induction outs as [| o0 outs IH]; intros k e Hc; simpl in Hc.
  - discriminate.
  - destruct (Bool.eqb (BucketID o0 =? "") (Address o0 =? "")) eqn:E.
    + injection Hc as <-. exists 0, o0. rewrite Nat.add_0_r.
      repeat split; [now apply checkDest_both_or_neither | constructor].
    + apply IH in Hc as (i & o & Hi & Hbad & Hpre & ->).
      exists (S i), o. rewrite Nat.add_succ_r. simpl.
      repeat split; try assumption.
      constructor; [now apply checkDest_one_destination | exact Hpre].
Qed.

Lemma addAssetIssuanceOutputs_from_failure ctx a outs : forall k tx acc s e s',
  addAssetIssuanceOutputs_from ctx a k outs tx acc s = (inl e, s') ->
  exists i o rs si err,
    nth_error outs i = Some o /\
    resolved_seq ctx s (firstn i outs) rs si /\
    Output_PKScript o ctx si = (inl err, s') /\
    e = WithDetailf err "output %d" [ArgInt (Z.of_nat (k + i))].
Proof.
  induction outs as [| o0 outs IH]; intros k tx acc s e s' Hrun.
  - discriminate.
  - rewrite addAssetIssuanceOutputs_from_step in Hrun.
    destruct (Output_PKScript o0 ctx s) as [[err | [script recv]] s1] eqn:E.
    + inversion Hrun; subst. exists 0, o0, [], s, err.
      rewrite Nat.add_0_r. repeat split; [constructor | exact E].
    + apply PKScript_resolved in E.
      apply IH in Hrun as (i & o & rs & si & err & Hi & Hpre & Hf & ->).
      exists (S i), o, ((script, recv) :: rs), si, err.
      rewrite Nat.add_succ_r. simpl. repeat split; try assumption.
      econstructor; eassumption.
Qed.

Lemma nth_error_split_firstn {A} (l : list A) : forall i x,
  nth_error l i = Some x -> l = firstn i l ++ x :: skipn (S i) l.
Proof.
  induction l as [| y l IH]; intros [| i] x Hi; try discriminate; simpl in *.
  - now injection Hi as ->.
  - f_equal. now apply IH.
Qed.

(** X1: with a valid asset and well-shaped outputs, when the outputs
    before a bucket output resolve and [CreateAddress] fails for it,
    [Issue] fails with that error, annotated with the bucket and the
    index of the output.  The addresses provisioned for the outputs
    before it stay provisioned: the state returned is the one the failed
    call left, nothing is undone, and no later output is looked at. *)
Theorem Issue_provisioning_failure ctx assetID outs s a w i o rs si err w' :
  appdb_AssetByID ctx assetID (world s) = (inr a, w) ->
  Forall one_destination outs ->
  nth_error outs i = Some o ->
  BucketID o <> "" ->
  resolved_seq ctx (after_lookup s assetID w) (firstn i outs) rs si ->
  asset_CreateAddress ctx (addressRequest o) false (world si) = (inl err, w') ->
  Issue ctx assetID outs s =
    (inl (provisioningError err (BucketID o) i),
     {| world := w'; calls := calls si ++ [provisionCall o] |}) /\
  Root (provisioningError err (BucketID o) i) = Root err /\
  In ("output %d", [ArgInt (Z.of_nat i)])
     (annotations (provisioningError err (BucketID o) i)).
Proof.
  intros Hl Hc Hi Hb Hpre Hfail.
  split; [| split; [reflexivity | simpl; right; left; reflexivity]].
  rewrite Issue_steps, Hl.
  apply (Issue_checkDests_ok outs 0) in Hc. rewrite Hc.
  unfold addAssetIssuanceOutputs.
  rewrite (nth_error_split_firstn outs i o Hi) at 1.
  rewrite (addAssetIssuanceOutputs_from_app ctx a _ _ _ _ Hpre).
  rewrite addAssetIssuanceOutputs_from_step.
  rewrite (PKScript_provisioning_failure ctx o si err w' Hb Hfail).
  rewrite length_firstn, Nat.min_l.
  - reflexivity.
  - apply Nat.lt_le_incl, nth_error_Some. congruence.
Qed.

(** X2: an empty list of outputs is not an error.  With a valid asset,
    [Issue] succeeds; the transaction that is serialized has the null
    input and no output, there is no receiver, and the only call made to
    the stores is the lookup. *)
Theorem Issue_no_outputs ctx assetID s a w :
  appdb_AssetByID ctx assetID (world s) = (inr a, w) ->
  exists res,
    Issue ctx assetID [] s = (inr res, after_lookup s assetID w) /\
    Unsigned res =
      wire_Serialize {| wire.TxIns := [nullInput]; wire.TxOuts := [] |} /\
    OutRecvs res = [] /\
    List.length (Inputs res) = 1.
Proof.
  intros Hl. eexists. rewrite Issue_steps, Hl. simpl.
  split; [reflexivity |]. repeat split.
Qed.

(** X3: [Issue] succeeds exactly when the asset is found, every output
    names exactly one kind of destination, and the outputs resolve one
    after the other, each in the state its predecessor left; the state
    returned is the state after the last of them. *)
Theorem Issue_succeeds_iff ctx assetID outs s s' :
  (exists res, Issue ctx assetID outs s = (inr res, s')) <->
  (exists a w rs,
     appdb_AssetByID ctx assetID (world s) = (inr a, w) /\
     Forall one_destination outs /\
     resolved_seq ctx (after_lookup s assetID w) outs rs s').
Proof.
  split.
  - intros (res & Hrun).
    apply Issue_success in Hrun as (a & w & rs & Hl & Hc & Hrs & _).
    exists a, w, rs. repeat split; assumption.
  - intros (a & w & rs & Hl & Hc & Hrs).
    eexists. exact (Issue_succeeds _ _ _ _ _ _ _ _ Hl Hc Hrs).
Qed.

(** ** The calls made to the stores *)

Lemma PKScript_calls_exact ctx o s r s1 :
  Output_PKScript o ctx s = (r, s1) ->
  calls s1 = calls s ++ map provisionCall (filter toBucketb [o]).
Proof.
  unfold Output_PKScript, bind, onError, CreateAddress, ret, fail.
  simpl. unfold toBucketb.
  destruct (negb (BucketID o =? "")).
  - fold (addressRequest o).
    destruct (asset_CreateAddress ctx (addressRequest o) false (world s))
      as [[e | addr] w]; intros Heq; inversion Heq; subst; reflexivity.
  - destruct (txscript_AddrPkScript (Address o)); intros Heq;
      inversion Heq; subst; simpl; now rewrite app_nil_r.
Qed.

Lemma addAssetIssuanceOutputs_from_calls_exact ctx a outs :
  forall i tx acc s r s',
  addAssetIssuanceOutputs_from ctx a i outs tx acc s = (r, s') ->
  exists k,
    k <= List.length outs /\
    calls s' = calls s ++ map provisionCall (filter toBucketb (firstn k outs)) /\
    ((exists v, r = inr v) -> k = List.length outs).
Proof.
  induction outs as [| o outs IH]; intros i tx acc s r s' Hrun.
  - inversion Hrun; subst. exists 0. simpl.
    split; [lia |]. split; [now rewrite app_nil_r | reflexivity].
  - rewrite addAssetIssuanceOutputs_from_step in Hrun.
    destruct (Output_PKScript o ctx s) as [[err | p] s1] eqn:E;
      apply PKScript_calls_exact in E.
    + inversion Hrun; subst. exists 1. simpl in *.
      split; [lia |]. split; [exact E |].
      intros (v & Hv). discriminate.
    + apply IH in Hrun as (k & Hk & Hc & Hs).
      exists (S k). split; [simpl; lia |]. split.
      * rewrite Hc, E. simpl.
        destruct (toBucketb o); simpl; rewrite <- app_assoc; reflexivity.
      * intros Hv. simpl. f_equal. now apply Hs.
Qed.

(** X4: whatever the outcome, the calls [Issue] makes to the stores are
    the lookup of the asset followed by one [CreateAddress], with [save]
    false, for each bucket output of some prefix of the requests, in the
    order of the requests: nothing for a raw address, never two for one
    output, never out of order.  On success the prefix is the whole
    list. *)
Theorem Issue_store_calls ctx assetID outs s r s' :
  Issue ctx assetID outs s = (r, s') ->
  exists k,
    k <= List.length outs /\
    calls s' =
      calls s ++ CallAssetByID assetID
                 :: map provisionCall (filter toBucketb (firstn k outs)) /\
    ((exists res, r = inr res) -> k = List.length outs).
Proof.
  rewrite Issue_steps.
  destruct (appdb_AssetByID ctx assetID (world s)) as [[err | a] w].
  { intros Heq; inversion Heq; subst. exists 0. simpl.
    split; [lia |]. split; [reflexivity |]. intros (res & Hres). discriminate. }
  destruct (Issue_checkDests 0 outs) as [err | []].
  { intros Heq; inversion Heq; subst. exists 0. simpl.
    split; [lia |]. split; [reflexivity |]. intros (res & Hres). discriminate. }
  unfold addAssetIssuanceOutputs.
  destruct (addAssetIssuanceOutputs_from ctx a 0 outs Issue_tx0 []
              (after_lookup s assetID w)) as [r1 s1] eqn:Ha.
  apply addAssetIssuanceOutputs_from_calls_exact in Ha as (k & Hk & Hc & Hs).
  intros Heq.
  assert (s1 = s') as -> by (destruct r1; now inversion Heq).
  exists k. split; [exact Hk |]. split.
  - rewrite Hc. simpl. rewrite <- app_assoc. reflexivity.
  - intros (res & ->). apply Hs. destruct r1; [discriminate | eauto].
Qed.

(** X5: the ways [Issue] fails.  Either the lookup of the asset failed;
    or some output names both kinds of destination or neither, the
    outputs before it being well shaped, and nothing was resolved; or
    every output is well shaped, the outputs before some index resolved,
    and the output at that index is a raw address that does not encode
    or a bucket for which [CreateAddress] failed.  Every error that
    comes from an output carries the index of that output. *)
Theorem Issue_failure_cases ctx assetID outs s e s' :
  Issue ctx assetID outs s = (inl e, s') ->
  (exists err w,
     appdb_AssetByID ctx assetID (world s) = (inl err, w) /\
     e = WithDetailf err "get asset with ID %q" [ArgString assetID] /\
     s' = after_lookup s assetID w) \/
  (exists a w i o,
     appdb_AssetByID ctx assetID (world s) = (inr a, w) /\
     nth_error outs i = Some o /\
     both_or_neither o /\
     Forall one_destination (firstn i outs) /\
     e = WithDetailf ErrBadOutDest "output index=%d" [ArgInt (Z.of_nat i)] /\
     s' = after_lookup s assetID w) \/
  (exists a w i o rs si,
     appdb_AssetByID ctx assetID (world s) = (inr a, w) /\
     Forall one_destination outs /\
     nth_error outs i = Some o /\
     resolved_seq ctx (after_lookup s assetID w) (firstn i outs) rs si /\
     ((BucketID o = "" /\
       (exists e0, txscript_AddrPkScript (Address o) = inl e0) /\
       e = badAddrError (Address o) i /\
       s' = si) \/
      (BucketID o <> "" /\
       exists cerr w',
         asset_CreateAddress ctx (addressRequest o) false (world si)
           = (inl cerr, w') /\
         e = provisioningError cerr (BucketID o) i /\
         s' = {| world := w'; calls := calls si ++ [provisionCall o] |}))).
Proof.
  rewrite Issue_steps.
  destruct (appdb_AssetByID ctx assetID (world s)) as [[err | a] w] eqn:Hl.
  { intros Heq; inversion Heq; subst. left. exists err, w. repeat split. }
  destruct (Issue_checkDests 0 outs) as [err | []] eqn:Hc.
  { intros Heq; inversion Heq; subst. right. left.
    apply Issue_checkDests_failure in Hc as (i & o & Hi & Hbad & Hpre & ->).
    exists a, w, i, o. repeat split; assumption. }
  apply Issue_checkDests_ok in Hc.
  unfold addAssetIssuanceOutputs.
  destruct (addAssetIssuanceOutputs_from ctx a 0 outs Issue_tx0 []
              (after_lookup s assetID w)) as [[err | r] s1] eqn:Ha;
    intros Heq; inversion Heq; subst.
  right. right.
  apply addAssetIssuanceOutputs_from_failure in Ha
    as (i & o & rs & si & err' & Hi & Hpre & Hf & ->).
  exists a, w, i, o, rs, si.
  split; [reflexivity |]. split; [exact Hc |]. split; [exact Hi |].
  split; [exact Hpre |].
  apply PKScript_failure in Hf
    as [(Hb & He0 & -> & ->) | (Hb & cerr & w' & Hcr & -> & ->)].
  - left. repeat split; assumption.
  - right. split; [exact Hb |]. exists cerr, w'. repeat split. exact Hcr.
Qed.

(** ** The function [addAssetIssuanceOutputs] on any transaction *)

(** X7: [addAssetIssuanceOutputs] only appends.  On success the inputs
    of the transaction are untouched, the outputs it had are kept in
    front, in their order, one output is added per request, and one
    receiver is returned per request. *)
Theorem addAssetIssuanceOutputs_appends ctx tx a outs s tx' recvs s' :
  addAssetIssuanceOutputs ctx tx a outs s = (inr (tx', recvs), s') ->
  wire.TxIns tx' = wire.TxIns tx /\
  firstn (List.length (wire.TxOuts tx)) (wire.TxOuts tx') = wire.TxOuts tx /\
  List.length (wire.TxOuts tx') =
    List.length (wire.TxOuts tx) + List.length outs /\
  List.length recvs = List.length outs /\
  Forall (fun to => wire.AssetID to = appdb.Hash a)
    (skipn (List.length (wire.TxOuts tx)) (wire.TxOuts tx')).
Proof.
  unfold addAssetIssuanceOutputs. intros Hrun.
  apply addAssetIssuanceOutputs_from_ok in Hrun as (rs & Hrs & Hin & Hout & ->).
  pose proof (resolved_seq_length _ _ _ _ _ Hrs) as Hlen.
  split; [exact Hin |]. rewrite Hout.
  split; [| split; [| split]].
  - rewrite firstn_app, Nat.sub_diag, firstn_all. simpl. apply app_nil_r.
  - rewrite length_app, issuedOutputs_length by exact Hlen. reflexivity.
  - simpl. now rewrite length_map.
  - rewrite skipn_app, Nat.sub_diag, skipn_all. simpl.
    unfold issuedOutputs. apply Forall_forall.
    intros to Hto. apply in_map_iff in Hto as (p & <- & _). reflexivity.
Qed.

(** ** Amounts *)

Lemma PKScript_same_but_Amount ctx o o' :
  same_but_Amount o o' -> Output_PKScript o ctx = Output_PKScript o' ctx.
Proof.
  destruct o, o'. unfold same_but_Amount. simpl.
  intros (-> & -> & -> & ->). reflexivity.
Qed.

Lemma Issue_checkDests_same_but_Amount outs outs' :
  Forall2 same_but_Amount outs outs' ->
  forall k, Issue_checkDests k outs = Issue_checkDests k outs'.
Proof.
  induction 1 as [| o o' outs outs' Ho _ IH]; intros k; simpl.
  - reflexivity.
  - destruct Ho as (_ & -> & -> & _). now rewrite IH.
Qed.

Lemma addAssetIssuanceOutputs_from_same_but_Amount ctx a outs outs' :
  Forall2 same_but_Amount outs outs' ->
  forall i tx tx' acc s,
    match addAssetIssuanceOutputs_from ctx a i outs tx acc s,
          addAssetIssuanceOutputs_from ctx a i outs' tx' acc s with
    | (inl e1, s1), (inl e2, s2) => e1 = e2 /\ s1 = s2
    | (inr r1, s1), (inr r2, s2) => snd r1 = snd r2 /\ s1 = s2
    | _, _ => False
    end.
Proof.
  induction 1 as [| o o' outs outs' Ho _ IH]; intros i tx tx' acc s.
  - simpl. unfold ret. split; reflexivity.
  - rewrite !addAssetIssuanceOutputs_from_step.
    rewrite (PKScript_same_but_Amount ctx o o' Ho).
    destruct (Output_PKScript o' ctx s) as [[err | r] s1].
    + split; reflexivity.
    + apply IH.
Qed.

(** X8: [Issue] does not look at amounts: no amount, negative or zero,
    is refused.  Two lists of outputs that differ only in their amounts
    give the same error or the same receivers, and leave the same
    state. *)
Theorem Issue_ignores_amounts ctx assetID outs outs' s :
  Forall2 same_but_Amount outs outs' ->
  effects (Issue ctx assetID outs s) = effects (Issue ctx assetID outs' s).
Proof.
  intros Hsame. rewrite !Issue_steps.
  destruct (appdb_AssetByID ctx assetID (world s)) as [[err | a] w];
    [reflexivity |].
  rewrite (Issue_checkDests_same_but_Amount outs outs' Hsame 0).
  destruct (Issue_checkDests 0 outs') as [err | []]; [reflexivity |].
  unfold addAssetIssuanceOutputs.
  pose proof (addAssetIssuanceOutputs_from_same_but_Amount ctx a outs outs'
                Hsame 0 Issue_tx0 Issue_tx0 [] (after_lookup s assetID w)) as H.
  destruct (addAssetIssuanceOutputs_from ctx a 0 outs Issue_tx0 []
              (after_lookup s assetID w)) as [[e1 | r1] s1],
           (addAssetIssuanceOutputs_from ctx a 0 outs' Issue_tx0 []
              (after_lookup s assetID w)) as [[e2 | r2] s2];
    try contradiction; destruct H as (-> & ->); reflexivity.
Qed.

(** ** The result *)

(** X9: on success the result is made of the asset, the bytes of the
    transaction and the receivers alone.  Its chain tag is ["sandbox"],
    and its one input carries the key group and redeem script of the
    asset found under [assetID], the double hash of the bytes returned,
    and the placeholders of the keys derived for that asset: the outputs
    bear on the input through the digest only. *)
Theorem Issue_result_shape ctx assetID outs s res s' :
  Issue ctx assetID outs s = (inr res, s') ->
  exists a w,
    appdb_AssetByID ctx assetID (world s) = (inr a, w) /\
    BlockChain res = "sandbox" /\
    Inputs res =
      [{| AssetGroupID := appdb.GroupID a;
          RedeemScript := appdb.RedeemScript a;
          SignatureData := DoubleSha256 (Unsigned res);
          Sigs := map placeholder
                    (hdkey_Derive (appdb.Keys a) (appdb_IssuancePath a)) |}].
Proof.
  intros Hrun.
  apply Issue_success in Hrun as (a & w & rs & Hl & _ & _ & ->).
  exists a, w. split; [exact Hl |]. split; [reflexivity |].
  simpl. unfold issuanceInput. now rewrite inputSigs_map.
Qed.

(** ** Receivers and kinds of destination *)

Lemma resolved_seq_present ctx s outs rs s' :
  resolved_seq ctx s outs rs s' ->
  map present (map snd rs) = map toBucketb outs.
Proof.
  induction 1 as [s | s o script recv s1 outs rs s2 Hr _ IH]; simpl.
  - reflexivity.
  - rewrite IH. f_equal. unfold toBucketb.
    destruct Hr as [s o script Hb _ | s o addr w Hb _]; simpl.
    + now rewrite Hb.
    + apply String.eqb_neq in Hb. now rewrite Hb.
Qed.

(** X11: on success, the receivers that are not nil sit exactly at the
    positions of the outputs that name a bucket. *)
Theorem Issue_receivers_at_buckets ctx assetID outs s res s' :
  Issue ctx assetID outs s = (inr res, s') ->
  map present (OutRecvs res) = map toBucketb outs.
Proof.
  intros Hrun.
  apply Issue_success in Hrun as (a & w & rs & _ & _ & Hrs & ->).
  simpl. exact (resolved_seq_present _ _ _ _ _ Hrs).
Qed.

Lemma PKScript_raw_address ctx o s r s1 :
  BucketID o = "" ->
  Output_PKScript o ctx s = (r, s1) ->
  s1 = s /\ forall p, r = inr p -> snd p = None.
Proof.
  intros Hb. unfold Output_PKScript, ret, fail. rewrite Hb. simpl.
  destruct (txscript_AddrPkScript (Address o)); intros Heq;
    inversion Heq; subst; (split; [reflexivity |]);
    intros p Hp; inversion Hp; reflexivity.
Qed.

Lemma addAssetIssuanceOutputs_from_raw_addresses ctx a outs :
  Forall (fun o => BucketID o = "") outs ->
  forall i tx acc s r s',
  addAssetIssuanceOutputs_from ctx a i outs tx acc s = (r, s') ->
  s' = s /\
  forall tx' recvs, r = inr (tx', recvs) ->
                    recvs = acc ++ repeat None (List.length outs).
Proof.
  induction 1 as [| o outs Hb _ IH]; intros i tx acc s r s' Hrun.
  - inversion Hrun; subst. split; [reflexivity |].
    intros tx' recvs Heq. inversion Heq. simpl. now rewrite app_nil_r.
  - rewrite addAssetIssuanceOutputs_from_step in Hrun.
    destruct (Output_PKScript o ctx s) as [[err | p] s1] eqn:E;
      apply (PKScript_raw_address ctx o s _ s1 Hb) in E as (-> & Hnone).
    + inversion Hrun; subst. split; [reflexivity |]. intros; discriminate.
    + apply IH in Hrun as (-> & Hrecv). split; [reflexivity |].
      intros tx' recvs Heq. rewrite (Hrecv tx' recvs Heq).
      rewrite (Hnone p eq_refl), <- app_assoc. reflexivity.
Qed.

(** X10: when every output is a raw address, [Issue] never reaches the
    address stores: whatever the outcome, the state it returns is the
    one the lookup of the asset left, and on success every receiver is
    nil. *)
Theorem Issue_raw_addresses_only ctx assetID outs s r s' :
  Forall (fun o => BucketID o = "") outs ->
  Issue ctx assetID outs s = (r, s') ->
  s' = after_lookup s assetID (snd (appdb_AssetByID ctx assetID (world s))) /\
  forall res, r = inr res ->
              OutRecvs res = repeat None (List.length outs).
Proof.
  intros Hraw. rewrite Issue_steps.
  destruct (appdb_AssetByID ctx assetID (world s)) as [[err | a] w]; simpl.
  { intros Heq; inversion Heq; subst. split; [reflexivity |].
    intros; discriminate. }
  destruct (Issue_checkDests 0 outs) as [err | []].
  { intros Heq; inversion Heq; subst. split; [reflexivity |].
    intros; discriminate. }
  unfold addAssetIssuanceOutputs.
  destruct (addAssetIssuanceOutputs_from ctx a 0 outs Issue_tx0 []
              (after_lookup s assetID w)) as [r1 s1] eqn:Ha.
  apply (addAssetIssuanceOutputs_from_raw_addresses ctx a outs Hraw) in Ha
    as (-> & Hrecv).
  destruct r1 as [err | [tx recvs]]; intros Heq; inversion Heq; subst.
  - split; [reflexivity |]. intros; discriminate.
  - split; [reflexivity |]. intros res Hres. inversion Hres; subst. simpl.
    exact (Hrecv tx recvs eq_refl).
Qed.

(** ** Two batches *)

Lemma resolved_seq_app ctx s outs1 rs1 s1 outs2 rs2 s2 :
  resolved_seq ctx s outs1 rs1 s1 ->
  resolved_seq ctx s1 outs2 rs2 s2 ->
  resolved_seq ctx s (outs1 ++ outs2) (rs1 ++ rs2) s2.
Proof.
  induction 1; intros H2; simpl; [exact H2 |].
  econstructor; [eassumption | auto].
Qed.

Lemma issuedOutputs_app a outs1 : forall rs1 outs2 rs2,
  List.length rs1 = List.length outs1 ->
  issuedOutputs a (outs1 ++ outs2) (rs1 ++ rs2) =
  issuedOutputs a outs1 rs1 ++ issuedOutputs a outs2 rs2.
Proof.
  unfold issuedOutputs.
  induction outs1 as [| o outs1 IH]; intros [| r rs1] outs2 rs2 Hlen;
    try discriminate; simpl.
  - reflexivity.
  - f_equal. apply IH. now injection Hlen.
Qed.

(** X12: adding the outputs in two batches to the same transaction, the
    second in the state the first left, gives what adding them in one
    batch gives: the same transaction, the receivers of the first batch
    followed by those of the second, and the same state. *)
Theorem addAssetIssuanceOutputs_batches
    ctx tx a outs1 outs2 s tx1 recvs1 s1 tx2 recvs2 s2 :
  addAssetIssuanceOutputs ctx tx a outs1 s = (inr (tx1, recvs1), s1) ->
  addAssetIssuanceOutputs ctx tx1 a outs2 s1 = (inr (tx2, recvs2), s2) ->
  addAssetIssuanceOutputs ctx tx a (outs1 ++ outs2) s
    = (inr (tx2, recvs1 ++ recvs2), s2).
Proof.
  unfold addAssetIssuanceOutputs. intros H1 H2.
  apply addAssetIssuanceOutputs_from_ok in H1 as (rs1 & Hrs1 & Hin1 & Hout1 & ->).
  apply addAssetIssuanceOutputs_from_ok in H2 as (rs2 & Hrs2 & Hin2 & Hout2 & ->).
  pose proof (resolved_seq_length _ _ _ _ _ Hrs1) as Hlen.
  rewrite (addAssetIssuanceOutputs_from_resolved ctx a _ _ _ _
             (resolved_seq_app _ _ _ _ _ _ _ _ Hrs1 Hrs2)).
  simpl. rewrite map_app, (issuedOutputs_app a _ _ _ _ Hlen).
  destruct tx2 as [ins2 outs2']. simpl in *. subst ins2 outs2'.
  rewrite Hin1, Hout1, <- app_assoc. reflexivity.
Qed.

End Further.

(** * The properties at work in the small world *)

Import asset.
Import Demo.

Lemma demo_one_destination (o : Output) :
  Bool.eqb (BucketID o =? "") (Address o =? "") = false -> one_destination o.
Proof. apply checkDest_one_destination. Qed.

Ltac demo_shapes :=
  repeat first [ apply Forall_nil
               | apply Forall_cons; [apply demo_one_destination; reflexivity |] ].

Lemma demo_both_or_neither (o : Output) :
  Bool.eqb (BucketID o =? "") (Address o =? "") = true -> both_or_neither o.
Proof. apply checkDest_both_or_neither. Qed.

(** C8 at work: the asset ["GOOG"] is unknown. *)
Lemma Issue_asset_not_found_witness :
  appdb_AssetByID ctx "GOOG" (world s0) = (inl (New "asset not found"), 5) /\
  exists e,
    Issue ctx "GOOG" [toAddress "1ABC" 100] s0 = (inl e, s1 "GOOG") /\
    e = WithDetailf (New "asset not found") "get asset with ID %q"
          [ArgString "GOOG"] /\
    Root e = New "asset not found" /\
    In ("get asset with ID %q", [ArgString "GOOG"]) (annotations e).
Proof.
  split; [reflexivity |].
  apply (Issue_asset_not_found ctx "GOOG" [toAddress "1ABC" 100] s0
           (New "asset not found") 5).
  reflexivity.
Defined.

(** C9 at work: an unknown asset and an output naming both kinds of
    destination; the error is that of the lookup. *)
Lemma Issue_lookup_precedes_outputs_witness :
  appdb_AssetByID ctx "GOOG" (world s0) = (inl (New "asset not found"), 5) /\
  both_or_neither (toBoth "1ABC" "acct_1" 10) /\
  Issue ctx "GOOG" [toBoth "1ABC" "acct_1" 10] s0 =
    (inl (WithDetailf (New "asset not found") "get asset with ID %q"
            [ArgString "GOOG"]), s1 "GOOG") /\
  addressRequests (calls (snd (Issue ctx "GOOG" [toBoth "1ABC" "acct_1" 10] s0)))
    = [].
Proof.
  assert (Hl : appdb_AssetByID ctx "GOOG" (world s0)
               = (inl (New "asset not found"), 5)) by reflexivity.
  split; [exact Hl |].
  split; [apply demo_both_or_neither; reflexivity |].
  destruct (Issue_lookup_precedes_outputs ctx "GOOG" [toBoth "1ABC" "acct_1" 10]
              s0 (New "asset not found") 5 Hl) as (H1 & _ & _ & H4).
  split; [exact H1 | exact H4].
Defined.

(** C2 at work: the second output names both kinds of destination; the
    first, to a bucket, gets no address. *)
Lemma Issue_bad_destination_witness :
  appdb_AssetByID ctx "AAPL" (world s0) = (inr aapl, 5) /\
  nth_error [toBucket "acct_1" 100; toBoth "1ABC" "acct_1" 10; toAddress "1ABC" 1] 1
    = Some (toBoth "1ABC" "acct_1" 10) /\
  both_or_neither (toBoth "1ABC" "acct_1" 10) /\
  ~ both_or_neither (toBucket "acct_1" 100) /\
  exists e s',
    Issue ctx "AAPL"
      [toBucket "acct_1" 100; toBoth "1ABC" "acct_1" 10; toAddress "1ABC" 1] s0
      = (inl e, s') /\
    e = WithDetailf ErrBadOutDest "output index=%d" [ArgInt 1] /\
    Root e = Root ErrBadOutDest /\
    s' = s1 "AAPL" /\
    addressRequests (calls s') = [].
Proof.
  assert (Hgood : ~ both_or_neither (toBucket "acct_1" 100)).
  { intros [[H _] | [_ H]]; [apply H; reflexivity | discriminate H]. }
  split; [reflexivity |]. split; [reflexivity |].
  split; [apply demo_both_or_neither; reflexivity |].
  split; [exact Hgood |].
  apply (Issue_bad_destination ctx "AAPL"
           [toBucket "acct_1" 100; toBoth "1ABC" "acct_1" 10; toAddress "1ABC" 1]
           s0 aapl 5 1 (toBoth "1ABC" "acct_1" 10)).
  - reflexivity.
  - reflexivity.
  - apply demo_both_or_neither; reflexivity.
  - intros j o' Hj Hn. assert (j = 0) as -> by lia.
    injection Hn as <-. exact Hgood.
Defined.

(** C1 at work: one output to an address and one to a bucket. *)
Lemma Issue_outputs_follow_requests_witness :
  exists res s',
    Issue ctx "AAPL" [toAddress "1ABC" 100; toBucket "acct_1" 50] s0
      = (inr res, s') /\
    exists a w tx rs,
      appdb_AssetByID ctx "AAPL" (world s0) = (inr a, w) /\
      Unsigned res = wire_Serialize tx /\
      List.length (wire.TxOuts tx) = 2 /\
      List.length (OutRecvs res) = 2 /\
      resolved_seq ctx (after_lookup s0 "AAPL" w)
        [toAddress "1ABC" 100; toBucket "acct_1" 50] rs s'.
Proof.
  eassert (Hrun : Issue ctx "AAPL"
                    [toAddress "1ABC" 100; toBucket "acct_1" 50] s0
                  = (inr _, _)) by reflexivity.
  do 2 eexists. split; [exact Hrun |].
  destruct (Issue_outputs_follow_requests ctx "AAPL"
              [toAddress "1ABC" 100; toBucket "acct_1" 50] s0 _ _ Hrun)
    as (a & w & tx & rs & H1 & _ & H2 & H3 & H4 & _ & H5 & _).
  exists a, w, tx, rs. repeat split; assumption.
Defined.

(** C3 at work. *)
Lemma Issue_signature_data_witness :
  exists res s',
    Issue ctx "AAPL" [toAddress "1ABC" 100; toBucket "acct_1" 50] s0
      = (inr res, s') /\
    exists input,
      Inputs res = [input] /\
      SignatureData input = DoubleSha256 (Unsigned res).
Proof.
  eassert (Hrun : Issue ctx "AAPL"
                    [toAddress "1ABC" 100; toBucket "acct_1" 50] s0
                  = (inr _, _)) by reflexivity.
  do 2 eexists. split; [exact Hrun |].
  destruct (Issue_signature_data ctx "AAPL"
              [toAddress "1ABC" 100; toBucket "acct_1" 50] s0 _ _ Hrun)
    as (a & w & tx & input & _ & _ & _ & H1 & _ & H2 & _).
  exists input. split; assumption.
Defined.

(** C4 at work: the asset ["AAPL"] has two root keys and ["BARE"] has
    none. *)
Lemma Issue_signature_placeholders_witness :
  (exists res s' input,
     Issue ctx "AAPL" [toAddress "1ABC" 100] s0 = (inr res, s') /\
     Inputs res = [input] /\
     Sigs input = [{| XPub := "xpub_a"; DerivationPath := [0%Z; 7%Z] |};
                   {| XPub := "xpub_b"; DerivationPath := [0%Z; 7%Z] |}]) /\
  (hdkey_Derive (appdb.Keys bare) (appdb_IssuancePath bare) = [] /\
   exists res input,
     Issue ctx "BARE" [toAddress "1ABC" 100] s0 = (inr res, s1 "BARE") /\
     Inputs res = [input] /\
     Sigs input = []).
Proof.
  split.
  - eassert (Hrun : Issue ctx "AAPL" [toAddress "1ABC" 100] s0 = (inr _, _))
      by reflexivity.
    do 2 eexists.
    destruct (proj1 (Issue_signature_placeholders ctx "AAPL"
                       [toAddress "1ABC" 100] s0) _ _ Hrun)
      as (a & w & input & Hl & Hin & _ & _ & _).
    exists input. split; [exact Hrun |]. split; [exact Hin |].
    injection Hin as <-. reflexivity.
  - split; [reflexivity |].
    apply (proj2 (Issue_signature_placeholders ctx "BARE"
                    [toAddress "1ABC" 100] s0) bare 5
             [([x76; xa9; x88; xac], None)] (s1 "BARE")).
    + reflexivity.
    + demo_shapes.
    + change (after_lookup s0 "BARE" 5) with (s1 "BARE").
      apply resolved_cons with (s1 := s1 "BARE"); [| apply resolved_nil].
      apply resolved_address; reflexivity.
    + reflexivity.
Defined.

(** C6 at work. *)
Lemma Issue_single_null_input_witness :
  exists res s',
    Issue ctx "AAPL" [toAddress "1ABC" 100; toBucket "acct_1" 50] s0
      = (inr res, s') /\
    exists tx,
      Unsigned res = wire_Serialize tx /\
      wire.TxIns tx = [nullInput] /\
      List.length (Inputs res) = 1.
Proof.
  eassert (Hrun : Issue ctx "AAPL"
                    [toAddress "1ABC" 100; toBucket "acct_1" 50] s0
                  = (inr _, _)) by reflexivity.
  do 2 eexists. split; [exact Hrun |].
  destruct (Issue_single_null_input ctx "AAPL"
              [toAddress "1ABC" 100; toBucket "acct_1" 50] s0)
    as (H0 & _ & H).
  destruct (H _ _ Hrun) as (a & w & tx & _ & _ & H1 & H2 & _ & H3).
  exists tx. split; [exact H1 |]. split; [| exact H3].
  rewrite H2. exact H0.
Defined.

(** C5 as stated fails: an output labelled ["GOOG"] is issued in
    ["AAPL"], and the call succeeds with that output included. *)
Lemma Issue_mismatched_AssetID_counterexample :
  AssetID (labelled "GOOG" "1ABC" 100) <> "AAPL" /\
  exists res,
    Issue ctx "AAPL" [labelled "GOOG" "1ABC" 100] s0 = (inr res, s1 "AAPL") /\
    Unsigned res =
      wire_Serialize
        {| wire.TxIns := [nullInput];
           wire.TxOuts := [{| wire.AssetID := appdb.Hash aapl;
                              wire.Value := 100;
                              wire.PkScript := [x76; xa9; x88; xac] |}] |} /\
    OutRecvs res = [None].
Proof.
  split; [discriminate |].
  eexists. split; [reflexivity |]. split; reflexivity.
Qed.

(** C5 amended, at work: the label of the output changes nothing. *)
Lemma Issue_ignores_output_AssetID_witness :
  Forall2 same_but_AssetID
    [labelled "GOOG" "1ABC" 100] [labelled "AAPL" "1ABC" 100] /\
  Issue ctx "AAPL" [labelled "GOOG" "1ABC" 100] s0 =
  Issue ctx "AAPL" [labelled "AAPL" "1ABC" 100] s0.
Proof.
  assert (H : Forall2 same_but_AssetID
                [labelled "GOOG" "1ABC" 100] [labelled "AAPL" "1ABC" 100]).
  { repeat constructor. }
  split; [exact H |].
  exact (proj1 (Issue_ignores_output_AssetID ctx "AAPL" _ _ s0 H)).
Defined.

(** C7 as stated fails: with a valid asset and well-shaped outputs, the
    second output is a malformed raw address, but the first, to an
    unknown bucket, fails before it; the error is not [ErrBadAddr]. *)
Lemma Issue_bad_address_counterexample :
  appdb_AssetByID ctx "AAPL" (world s0) = (inr aapl, 5) /\
  Forall one_destination [toBucket "nope" 100; toAddress "bad" 50] /\
  nth_error [toBucket "nope" 100; toAddress "bad" 50] 1
    = Some (toAddress "bad" 50) /\
  BucketID (toAddress "bad" 50) = "" /\
  txscript_AddrPkScript (Address (toAddress "bad" 50))
    = inl (New "malformed address") /\
  exists e s',
    Issue ctx "AAPL" [toBucket "nope" 100; toAddress "bad" 50] s0 = (inl e, s') /\
    e = Wrap
          (WithDetailf
             (Wrapf (New "bucket not found")
                "output create address error bucket=%v" [ArgString "nope"])
             "output %d" [ArgInt 0])
          "add issuance outputs" /\
    Root e <> ErrBadAddr /\
    e <> badAddrError "bad" 1.
Proof.
  split; [reflexivity |].
  split; [demo_shapes |].
  split; [reflexivity |]. split; [reflexivity |]. split; [reflexivity |].
  do 2 eexists. split; [reflexivity |]. split; [reflexivity |].
  split; discriminate.
Qed.

(** C7 amended, at work: the output before the malformed address
    resolves. *)
Lemma Issue_bad_address_witness :
  appdb_AssetByID ctx "AAPL" (world s0) = (inr aapl, 5) /\
  Forall one_destination [toBucket "acct_1" 100; toAddress "bad" 50] /\
  nth_error [toBucket "acct_1" 100; toAddress "bad" 50] 1
    = Some (toAddress "bad" 50) /\
  BucketID (toAddress "bad" 50) = "" /\
  txscript_AddrPkScript (Address (toAddress "bad" 50))
    = inl (New "malformed address") /\
  resolved_seq ctx (after_lookup s0 "AAPL" 5)
    (firstn 1 [toBucket "acct_1" 100; toAddress "bad" 50])
    [([xa9; x87], Some receiver5)] (s2 "AAPL") /\
  Issue ctx "AAPL" [toBucket "acct_1" 100; toAddress "bad" 50] s0
    = (inl (badAddrError "bad" 1), s2 "AAPL").
Proof.
  assert (Hl : appdb_AssetByID ctx "AAPL" (world s0) = (inr aapl, 5))
    by reflexivity.
  assert (Hc : Forall one_destination
                 [toBucket "acct_1" 100; toAddress "bad" 50]).
  { demo_shapes. }
  assert (Hpre : resolved_seq ctx (after_lookup s0 "AAPL" 5)
            (firstn 1 [toBucket "acct_1" 100; toAddress "bad" 50])
            [([xa9; x87], Some receiver5)] (s2 "AAPL")).
  { simpl. eapply resolved_cons; [| apply resolved_nil].
    apply (resolved_bucket ctx (after_lookup s0 "AAPL" 5)
             (toBucket "acct_1" 100) address5 6);
      [discriminate | reflexivity]. }
  assert (Hn : nth_error [toBucket "acct_1" 100; toAddress "bad" 50] 1
               = Some (toAddress "bad" 50)) by reflexivity.
  assert (Hb : BucketID (toAddress "bad" 50) = "") by reflexivity.
  assert (He : txscript_AddrPkScript (Address (toAddress "bad" 50))
               = inl (New "malformed address")) by reflexivity.
  repeat (split; [first [exact Hl | exact Hc | exact Hpre | exact Hn
                        | exact Hb | exact He] |]).
  exact (proj1 (proj2 (Issue_bad_address ctx "AAPL"
                         [toBucket "acct_1" 100; toAddress "bad" 50] s0 aapl 5
                         1 (toAddress "bad" 50) (New "malformed address")
                         Hl Hc Hn Hb He) _ _ Hpre)).
Defined.

(** C10 at work: a call that provisions an address and then fails. *)
Lemma Issue_never_change_witness :
  Forall not_change [toBucket "acct_1" 100; toAddress "bad" 50] /\
  Issue ctx "AAPL" [toBucket "acct_1" 100; toAddress "bad" 50] s0
    = (inl (badAddrError "bad" 1), s2 "AAPL") /\
  exists new,
    calls (s2 "AAPL") = calls s0 ++ new /\
    forall addr, In addr (addressRequests new) -> appdb.IsChange addr = false.
Proof.
  assert (Hf : Forall not_change [toBucket "acct_1" 100; toAddress "bad" 50])
    by (repeat constructor).
  assert (Hrun : Issue ctx "AAPL" [toBucket "acct_1" 100; toAddress "bad" 50] s0
                 = (inl (badAddrError "bad" 1), s2 "AAPL")) by reflexivity.
  split; [exact Hf |]. split; [exact Hrun |].
  destruct (Issue_never_change ctx "AAPL" _ s0 _ _ Hf Hrun)
    as (new & H1 & H2 & _).
  exists new. split; assumption.
Defined.

(** ** The further properties at work *)

(** X1 at work: the second bucket is unknown; the address provisioned
    for the first stays provisioned. *)
Lemma Issue_provisioning_failure_witness :
  appdb_AssetByID ctx "AAPL" (world s0) = (inr aapl, 5) /\
  Forall one_destination [toBucket "acct_1" 100; toBucket "nope" 50] /\
  nth_error [toBucket "acct_1" 100; toBucket "nope" 50] 1
    = Some (toBucket "nope" 50) /\
  BucketID (toBucket "nope" 50) <> "" /\
  resolved_seq ctx (after_lookup s0 "AAPL" 5)
    (firstn 1 [toBucket "acct_1" 100; toBucket "nope" 50])
    [([xa9; x87], Some receiver5)] (s2 "AAPL") /\
  asset_CreateAddress ctx (addressRequest (toBucket "nope" 50)) false
    (world (s2 "AAPL")) = (inl (New "bucket not found"), 6) /\
  Issue ctx "AAPL" [toBucket "acct_1" 100; toBucket "nope" 50] s0 =
    (inl (provisioningError (New "bucket not found") "nope" 1),
     {| world := 6;
        calls := calls (s2 "AAPL") ++ [provisionCall (toBucket "nope" 50)] |}).
Proof.
  assert (Hl : appdb_AssetByID ctx "AAPL" (world s0) = (inr aapl, 5))
    by reflexivity.
  assert (Hc : Forall one_destination
                 [toBucket "acct_1" 100; toBucket "nope" 50]) by demo_shapes.
  assert (Hn : nth_error [toBucket "acct_1" 100; toBucket "nope" 50] 1
               = Some (toBucket "nope" 50)) by reflexivity.
  assert (Hb : BucketID (toBucket "nope" 50) <> "") by discriminate.
  assert (Hpre : resolved_seq ctx (after_lookup s0 "AAPL" 5)
            (firstn 1 [toBucket "acct_1" 100; toBucket "nope" 50])
            [([xa9; x87], Some receiver5)] (s2 "AAPL")).
  { simpl. eapply resolved_cons; [| apply resolved_nil].
    apply (resolved_bucket ctx (after_lookup s0 "AAPL" 5)
             (toBucket "acct_1" 100) address5 6);
      [discriminate | reflexivity]. }
  assert (Hf : asset_CreateAddress ctx (addressRequest (toBucket "nope" 50))
                 false (world (s2 "AAPL")) = (inl (New "bucket not found"), 6))
    by reflexivity.
  repeat (split; [first [exact Hl | exact Hc | exact Hn | exact Hb
                        | exact Hpre | exact Hf] |]).
  exact (proj1 (Issue_provisioning_failure ctx "AAPL" _ s0 aapl 5 1
                  (toBucket "nope" 50) _ (s2 "AAPL") (New "bucket not found") 6
                  Hl Hc Hn Hb Hpre Hf)).
Defined.

(** X2 at work. *)
Lemma Issue_no_outputs_witness :
  appdb_AssetByID ctx "AAPL" (world s0) = (inr aapl, 5) /\
  exists res,
    Issue ctx "AAPL" [] s0 = (inr res, after_lookup s0 "AAPL" 5) /\
    Unsigned res =
      wire_Serialize {| wire.TxIns := [nullInput]; wire.TxOuts := [] |} /\
    OutRecvs res = [] /\
    List.length (Inputs res) = 1.
Proof.
  assert (Hl : appdb_AssetByID ctx "AAPL" (world s0) = (inr aapl, 5))
    by reflexivity.
  split; [exact Hl |].
  exact (Issue_no_outputs ctx "AAPL" s0 aapl 5 Hl).
Defined.

(** X4 at work: a call that fails at its second output, a malformed
    address, after one address was provisioned; the bucket output
    behind it gets none. *)
Lemma Issue_store_calls_witness :
  Issue ctx "AAPL"
    [toBucket "acct_1" 100; toAddress "bad" 50; toBucket "acct_1" 1] s0
    = (inl (badAddrError "bad" 1), s2 "AAPL") /\
  exists k,
    k <= 3 /\
    calls (s2 "AAPL") =
      calls s0 ++ CallAssetByID "AAPL"
                  :: map provisionCall
                       (filter toBucketb
                          (firstn k [toBucket "acct_1" 100; toAddress "bad" 50;
                                     toBucket "acct_1" 1])).
Proof.
  assert (Hrun : Issue ctx "AAPL"
                   [toBucket "acct_1" 100; toAddress "bad" 50;
                    toBucket "acct_1" 1] s0
                 = (inl (badAddrError "bad" 1), s2 "AAPL")) by reflexivity.
  split; [exact Hrun |].
  destruct (Issue_store_calls ctx "AAPL" _ s0 _ _ Hrun) as (k & Hk & Hc & _).
  exists k. split; [exact Hk | exact Hc].
Defined.

(** X5 at work: a failure at the second output; the error carries the
    index of an output of the list. *)
Lemma Issue_failure_cases_witness :
  Issue ctx "AAPL" [toBucket "acct_1" 100; toAddress "bad" 50] s0
    = (inl (badAddrError "bad" 1), s2 "AAPL") /\
  exists i o,
    nth_error [toBucket "acct_1" 100; toAddress "bad" 50] i = Some o /\
    (badAddrError "bad" 1
       = WithDetailf ErrBadOutDest "output index=%d" [ArgInt (Z.of_nat i)] \/
     badAddrError "bad" 1 = badAddrError (Address o) i \/
     exists cerr,
       badAddrError "bad" 1 = provisioningError cerr (BucketID o) i).
Proof.
  assert (Hrun : Issue ctx "AAPL" [toBucket "acct_1" 100; toAddress "bad" 50] s0
                 = (inl (badAddrError "bad" 1), s2 "AAPL")) by reflexivity.
  split; [exact Hrun |].
  destruct (Issue_failure_cases ctx "AAPL" _ s0 _ _ Hrun)
    as [(err & w & Hl & _) | [(a & w & i & o & _ & Hi & _ & _ & He & _)
                             | (a & w & i & o & rs & si & _ & _ & Hi & _ & H)]].
  - discriminate Hl.
  - exists i, o. split; [exact Hi |]. left. exact He.
  - exists i, o. split; [exact Hi |].
    destruct H as [(_ & _ & He & _) | (_ & cerr & w' & _ & He & _)].
    + right. left. exact He.
    + right. right. exists cerr. exact He.
Defined.

(** X6 at work: an output that names an address and a bucket resolves
    as the output to the bucket alone does. *)
Lemma PKScript_bucket_first_witness :
  BucketID (toBucket "acct_1" 10) <> "" /\
  Output_PKScript (toBoth "1ABC" "acct_1" 10) ctx
    = Output_PKScript (toBucket "acct_1" 10) ctx.
Proof.
  assert (Hb : BucketID (toBucket "acct_1" 10) <> "") by discriminate.
  split; [exact Hb |].
  exact (PKScript_bucket_first ctx (toBucket "acct_1" 10)
           (toBoth "1ABC" "acct_1" 10) Hb eq_refl eq_refl).
Defined.

(** X7 at work: a transaction that already has two inputs and an
    output. *)
Lemma addAssetIssuanceOutputs_appends_witness :
  exists tx' recvs s',
    addAssetIssuanceOutputs ctx
      {| wire.TxIns := [nullInput; nullInput];
         wire.TxOuts := [wire.NewTxOut (repeat x01 32) 7 [x51]] |}
      aapl [toAddress "1ABC" 100; toBucket "acct_1" 50] (s1 "AAPL")
      = (inr (tx', recvs), s') /\
    wire.TxIns tx' = [nullInput; nullInput] /\
    firstn 1 (wire.TxOuts tx') = [wire.NewTxOut (repeat x01 32) 7 [x51]] /\
    List.length (wire.TxOuts tx') = 3 /\
    List.length recvs = 2.
Proof.
  eassert (Hrun : addAssetIssuanceOutputs ctx
                    {| wire.TxIns := [nullInput; nullInput];
                       wire.TxOuts := [wire.NewTxOut (repeat x01 32) 7 [x51]] |}
                    aapl [toAddress "1ABC" 100; toBucket "acct_1" 50]
                    (s1 "AAPL") = (inr (_, _), _)) by reflexivity.
  do 3 eexists. split; [exact Hrun |].
  destruct (addAssetIssuanceOutputs_appends ctx _ aapl _ _ _ _ _ Hrun)
    as (H1 & H2 & H3 & H4 & _).
  repeat split; assumption.
Defined.

(** X8 at work: a negative amount is issued like any other. *)
Lemma Issue_ignores_amounts_witness :
  Forall2 same_but_Amount
    [toAddress "1ABC" (-5); toBucket "acct_1" 0]
    [toAddress "1ABC" 100; toBucket "acct_1" 50] /\
  effects (Issue ctx "AAPL" [toAddress "1ABC" (-5); toBucket "acct_1" 0] s0)
    = (inr [None; Some receiver5], s2 "AAPL") /\
  effects (Issue ctx "AAPL" [toAddress "1ABC" (-5); toBucket "acct_1" 0] s0)
    = effects (Issue ctx "AAPL" [toAddress "1ABC" 100; toBucket "acct_1" 50] s0).
Proof.
  assert (H : Forall2 same_but_Amount
                [toAddress "1ABC" (-5); toBucket "acct_1" 0]
                [toAddress "1ABC" 100; toBucket "acct_1" 50]).
  { repeat constructor. }
  split; [exact H |]. split; [reflexivity |].
  exact (Issue_ignores_amounts ctx "AAPL" _ _ s0 H).
Defined.

(** X9 at work. *)
Lemma Issue_result_shape_witness :
  exists res s',
    Issue ctx "AAPL" [toAddress "1ABC" 100] s0 = (inr res, s') /\
    BlockChain res = "sandbox" /\
    Inputs res =
      [{| AssetGroupID := "ag_1";
          RedeemScript := [x51; xae];
          SignatureData := DoubleSha256 (Unsigned res);
          Sigs := [{| XPub := "xpub_a"; DerivationPath := [0%Z; 7%Z] |};
                   {| XPub := "xpub_b"; DerivationPath := [0%Z; 7%Z] |}] |}].
Proof.
  eassert (Hrun : Issue ctx "AAPL" [toAddress "1ABC" 100] s0 = (inr _, _))
    by reflexivity.
  do 2 eexists. split; [exact Hrun |].
  destruct (Issue_result_shape ctx "AAPL" _ s0 _ _ Hrun)
    as (a & w & Hl & Hb & Hin).
  split; [exact Hb |].
  injection Hl as <- _. exact Hin.
Defined.

(** X10 at work: two raw addresses, the second malformed. *)
Lemma Issue_raw_addresses_only_witness :
  Forall (fun o => BucketID o = "") [toAddress "1ABC" 1; toAddress "bad" 2] /\
  Issue ctx "AAPL" [toAddress "1ABC" 1; toAddress "bad" 2] s0
    = (inl (badAddrError "bad" 1), s1 "AAPL") /\
  s1 "AAPL" =
    after_lookup s0 "AAPL" (snd (appdb_AssetByID ctx "AAPL" (world s0))).
Proof.
  assert (Hraw : Forall (fun o => BucketID o = "")
                   [toAddress "1ABC" 1; toAddress "bad" 2])
    by (repeat constructor).
  assert (Hrun : Issue ctx "AAPL" [toAddress "1ABC" 1; toAddress "bad" 2] s0
                 = (inl (badAddrError "bad" 1), s1 "AAPL")) by reflexivity.
  split; [exact Hraw |]. split; [exact Hrun |].
  exact (proj1 (Issue_raw_addresses_only ctx "AAPL" _ s0 _ _ Hraw Hrun)).
Defined.

(** X11 at work. *)
Lemma Issue_receivers_at_buckets_witness :
  exists res s',
    Issue ctx "AAPL" [toAddress "1ABC" 100; toBucket "acct_1" 50] s0
      = (inr res, s') /\
    map present (OutRecvs res) = [false; true].
Proof.
  eassert (Hrun : Issue ctx "AAPL"
                    [toAddress "1ABC" 100; toBucket "acct_1" 50] s0
                  = (inr _, _)) by reflexivity.
  do 2 eexists. split; [exact Hrun |].
  exact (Issue_receivers_at_buckets ctx "AAPL" _ s0 _ _ Hrun).
Defined.

(** X12 at work: a bucket output, then a raw address. *)
Lemma addAssetIssuanceOutputs_batches_witness :
  exists tx1 tx2,
    addAssetIssuanceOutputs ctx Issue_tx0 aapl [toBucket "acct_1" 100]
      (s1 "AAPL") = (inr (tx1, [Some receiver5]), s2 "AAPL") /\
    addAssetIssuanceOutputs ctx tx1 aapl [toAddress "1ABC" 50] (s2 "AAPL")
      = (inr (tx2, [None]), s2 "AAPL") /\
    addAssetIssuanceOutputs ctx Issue_tx0 aapl
      [toBucket "acct_1" 100; toAddress "1ABC" 50] (s1 "AAPL")
      = (inr (tx2, [Some receiver5; None]), s2 "AAPL").
Proof.
  eassert (H1 : addAssetIssuanceOutputs ctx Issue_tx0 aapl
                  [toBucket "acct_1" 100] (s1 "AAPL")
                = (inr (_, [Some receiver5]), s2 "AAPL")) by reflexivity.
  eassert (H2 : addAssetIssuanceOutputs ctx _ aapl [toAddress "1ABC" 50]
                  (s2 "AAPL") = (inr (_, [None]), s2 "AAPL")) by reflexivity.
  do 2 eexists. split; [exact H1 |]. split; [exact H2 |].
  exact (addAssetIssuanceOutputs_batches ctx Issue_tx0 aapl
           [toBucket "acct_1" 100] [toAddress "1ABC" 50]
           _ _ _ _ _ _ _ H1 H2).
Defined.
